(** * Context-key lifecycle of the chatbot service (app.py)

    A shallow embedding of the request handlers of [app.py] that touch the
    process-global [extracted_texts] dictionary and the per-account key
    lists: [process_url], [chat] and [delete_api_key], together with the
    per-route rate limit the routes are decorated with.

    - a handler is a computation in a state-and-exception monad over the
      [world]; as in Python, what a handler wrote before an exception was
      raised stays written;
    - what a request brings with it (session cookie, JSON body) and what the
      outside answers while it is served (the page fetched, the UUID drawn,
      the database driver, the completion service) are arguments of the
      handler;
    - logging calls are left out: they read values and write nothing a
      handler reads back. *)

From Stdlib Require Import ZArith NArith List String Ascii Lia.
From stdpp Require Import gmap strings list fin_maps.

Local Open Scope string_scope.
Local Open Scope list_scope.
Local Open Scope nat_scope.
Local Set Warnings "-register-all".

(** ** JSON values carried by request bodies and payloads *)

Inductive json : Type :=
| JNull
| JBool (b : bool)
| JNum (n : Z)
| JStr (s : string)
| JArr (items : list json)
| JObj (fields : list (string * json)).

(** Python's truth value of a decoded JSON value, as tested by [if not x]. *)
Definition truthy (v : json) : bool :=
  match v with
  | JNull => false
  | JBool b => b
  | JNum n => negb (n =? 0)%Z
  | JStr s => negb (String.eqb s EmptyString)
  | JArr items => match items with [] => false | _ => true end
  | JObj fields => match fields with [] => false | _ => true end
  end.

(** [request.json.get(name)]: the field, or [None] when it is missing. *)
Definition json_get (body : gmap string json) (name : string) : json :=
  default JNull (body !! name).

(** ** Text helpers *)

Definition nl : string := String (ascii_of_nat 10) EmptyString.
Definition dquote : string := String (ascii_of_nat 34) EmptyString.

(** [sep.join(parts)] *)
Fixpoint join (sep : string) (parts : list string) : string :=
  match parts with
  | [] => EmptyString
  | [p] => p
  | p :: rest => p +:+ sep +:+ join sep rest
  end.

(** One digit of the [%x] conversion. *)
Definition hex_digit (d : N) : ascii :=
  match d with
  | 0%N => "0" | 1%N => "1" | 2%N => "2" | 3%N => "3"
  | 4%N => "4" | 5%N => "5" | 6%N => "6" | 7%N => "7"
  | 8%N => "8" | 9%N => "9" | 10%N => "a" | 11%N => "b"
  | 12%N => "c" | 13%N => "d" | 14%N => "e" | _ => "f"
  end%char.

(** The [width] low hexadecimal digits of [n], least significant first. *)
Fixpoint hex_digits (width : nat) (n : N) : list ascii :=
  match width with
  | O => []
  | S w => hex_digit (n mod 16) :: hex_digits w (n / 16)
  end.

(** [UUID.hex]: the 128-bit integer of the UUID as 32 lower-case hex digits
    ([%032x]). *)
Definition uuid_hex (u : N) : string :=
  string_of_list_ascii (rev (hex_digits 32 u)).
Arguments uuid_hex : simpl never.

Definition uuid_bound : N := 2 ^ 128.

(** ** Exceptions and the handler monad *)

(** The classes the [except] clauses of [chat] name, in the order the
    clauses are tried: [requests.exceptions.RequestException], then
    [Together.APIError], then [Exception]. *)
Inductive exn_class : Type :=
| RequestException
| TogetherAPIError
| OtherException.

Record exn : Type := { exn_cls : exn_class; exn_msg : string }.

Inductive result (A : Type) : Type :=
| Ok (a : A)
| Raise (e : exn).
Arguments Ok {A} a.
Arguments Raise {A} e.

(** A row of the [User] table. The [api_keys] column holds the JSON text of
    a list of strings; it is kept here as the list that text decodes to. *)
Record User : Type := {
  email : string;
  password : string;
  api_keys : list string
}.

Record message : Type := { role : string; content : json }.

(** Decimal literal [mantissa / 10 ^ places], for the float arguments. *)
Record decimal : Type := { mantissa : Z; places : nat }.

(** The keyword arguments of [client.chat.completions.create]. *)
Record completion_request : Type := {
  model : string;
  messages : list message;
  max_tokens : Z;
  temperature : decimal;
  top_p : decimal;
  top_k : Z;
  repetition_penalty : Z;
  stop : list string
}.

(** The state the handlers share: the global dictionary, the [User] table,
    and the requests sent so far to the completion service. *)
Record world : Type := {
  extracted_texts : gmap string string;
  users : gmap nat User;
  upstream_log : list completion_request
}.

Definition M (A : Type) : Type := world → result A * world.

#[global] Instance M_ret : MRet M := λ A a w, (Ok a, w).
#[global] Instance M_bind : MBind M := λ A B f c w,
  match c w with
  | (Ok a, w') => f a w'
  | (Raise e, w') => (Raise e, w')
  end.

Definition raise {A : Type} (e : exn) : M A := λ w, (Raise e, w).

(** [try: body  except Exception as e: handler e] *)
Definition try_except {A : Type} (body : M A) (handler : exn → M A) : M A :=
  λ w, match body w with
       | (Ok a, w') => (Ok a, w')
       | (Raise e, w') => handler e w'
       end.

Definition lift {A : Type} (r : result A) : M A := λ w, (r, w).

(** ** HTTP responses *)

Record response : Type := { payload : list (string * json); status : nat }.

(** [jsonify(obj), code] *)
Definition jsonify (obj : list (string * json)) (code : nat) : response :=
  {| payload := obj; status := code |}.

Definition is_error_payload (r : response) : Prop :=
  ∃ msg, payload r = [("error", JStr msg)].

Definition is_response_payload (r : response) : Prop :=
  ∃ text, payload r = [("response", JStr text)].

(** ** What the outside answers while a request is served *)

(** The database driver: [User.query.get] and [db.session.commit] either
    go through or raise. *)
Record db_env : Type := {
  query_error : option exn;
  commit_error : option exn
}.

(** For [process_url]: the body [requests.get] obtains for a URL (or the
    exception it raises), the texts of the [<p>] elements BeautifulSoup finds
    in a page, the integer of the UUID that [uuid.uuid4()] draws, and the
    database driver. *)
Record ingest_env : Type := {
  requests_get : json → result string;
  paragraph_texts : string → list string;
  uuid4 : N;
  ingest_db : db_env
}.

(** For [chat]: the completion service, answering a request with the
    [message.content] of each returned choice, or raising. *)
Definition completion_service : Type :=
  completion_request → result (list string).

(** ** Primitive effects *)

(** [extracted_texts[key] = text] *)
Definition texts_set (key text : string) : M unit := λ w,
  (Ok (), {| extracted_texts := <[key := text]> (extracted_texts w);
             users := users w;
             upstream_log := upstream_log w |}).

(** [extracted_texts.get(key, fallback)]: a [dict] lookup hashes its key,
    which lists and dicts refuse. *)
Definition texts_get (key : json) (fallback : string) : M string := λ w,
  match key with
  | JStr k => (Ok (default fallback (extracted_texts w !! k)), w)
  | JArr _ =>
      (Raise {| exn_cls := OtherException;
                exn_msg := "unhashable type: 'list'" |}, w)
  | JObj _ =>
      (Raise {| exn_cls := OtherException;
                exn_msg := "unhashable type: 'dict'" |}, w)
  | _ => (Ok fallback, w)
  end.

(** [extracted_texts.pop(key, None)] *)
Definition texts_pop (key : string) : M (option string) := λ w,
  (Ok (extracted_texts w !! key),
   {| extracted_texts := delete key (extracted_texts w);
      users := users w;
      upstream_log := upstream_log w |}).

(** [User.query.get(user_id)] *)
Definition query_get (db : db_env) (user_id : nat) : M (option User) := λ w,
  match query_error db with
  | Some e => (Raise e, w)
  | None => (Ok (users w !! user_id), w)
  end.

(** [json.loads(user.api_keys)], where [user] may be [None]. *)
Definition loads_api_keys (user : option User) : M (list string) :=
  match user with
  | Some u => mret (api_keys u)
  | None =>
      raise {| exn_cls := OtherException;
               exn_msg := "'NoneType' object has no attribute 'api_keys'" |}
  end.

(** [user.api_keys = json.dumps(keys); db.session.commit()]: the row
    changes in the table when the commit goes through. *)
Definition commit_api_keys (db : db_env) (user_id : nat) (keys : list string)
  : M unit := λ w,
  match commit_error db with
  | Some e => (Raise e, w)
  | None =>
      (Ok (),
       {| extracted_texts := extracted_texts w;
          users := alter (λ u, {| email := email u; password := password u;
                                  api_keys := keys |}) user_id (users w);
          upstream_log := upstream_log w |})
  end.

(** [client.chat.completions.create(...)] *)
Definition completions_create (client : completion_service)
    (req : completion_request) : M (list string) := λ w,
  (client req,
   {| extracted_texts := extracted_texts w;
      users := users w;
      upstream_log := upstream_log w ++ [req] |}).

(** [response.choices[0].message.content] *)
Definition first_choice (choices : list string) : M string :=
  match choices with
  | c :: _ => mret c
  | [] => raise {| exn_cls := OtherException;
                   exn_msg := "list index out of range" |}
  end.

(** ** The source's functions *)

Definition extract_text_from_url (env : ingest_env) (url : json) : M string :=
  html ← lift (requests_get env url);
  mret (join " " (paragraph_texts env html)).

Definition generate_integration_code (api_key : string) : string :=
  nl +:+ "<!-- AI Chatbot Integration -->" +:+ nl +:+
  "<script src=" +:+ dquote +:+
  "https://chatcat-s1ny.onrender.com/chatbot.js?api_key=" +:+ api_key +:+
  dquote +:+ "></script>" +:+ nl.

Definition process_url (env : ingest_env) (session : option nat)
    (body : gmap string json) : M response :=
  match session with
  | None => mret (jsonify [("error", JStr "User not logged in")] 401)
  | Some user_id =>
      let url := json_get body "url" in
      if negb (truthy url)
      then mret (jsonify [("error", JStr "No URL provided")] 400)
      else
        try_except
          (extracted_text ← extract_text_from_url env url;
           let api_key := "user_" +:+ uuid_hex (uuid4 env) in
           _ ← texts_set api_key extracted_text;
           user ← query_get (ingest_db env) user_id;
           keys ← loads_api_keys user;
           let keys := keys ++ [api_key] in
           _ ← commit_api_keys (ingest_db env) user_id keys;
           let integration_code := generate_integration_code api_key in
           mret (jsonify [("message", JStr "Processing complete");
                          ("api_key", JStr api_key);
                          ("integration_code", JStr integration_code)] 200))
          (λ e, mret (jsonify [("error", JStr (exn_msg e))] 500))
  end.

Definition no_context : string := "No context available for this API key.".

(** The f-string of the system message. *)
Definition system_content (context : string) : string :=
  "You are a helpful AI assistant trained on the following website content: "
  +:+ context +:+ nl +:+ nl +:+
  "Instructions for providing responses:" +:+ nl +:+
  "1. Start with a brief, direct answer to the user's question." +:+ nl +:+
  "2. If applicable, provide 2-3 key points or examples to support your answer."
  +:+ nl +:+
  "3. Use bullet points or numbered lists for clarity when appropriate."
  +:+ nl +:+
  "4. If the question is unclear, politely ask for clarification." +:+ nl +:+
  "5. Keep your total response under 150 words unless more detail is explicitly requested."
  +:+ nl +:+
  "6. End with a follow-up question or suggestion if relevant.".

(** The [AttributeError] Python raises for a missing class attribute. *)
Definition no_APIError : exn :=
  {| exn_cls := OtherException;
     exn_msg := "type object 'Together' has no attribute 'APIError'" |}.

(** The expression [Together.APIError] of the second [except] clause. The
    source imports only the client class [Together] (line 6), and that class
    has no attribute [APIError]: evaluating the expression raises. *)
Definition Together_APIError : result exn_class := Raise no_APIError.

Definition chat (client : completion_service) (session : option nat)
    (body : gmap string json) : M response :=
  try_except
    (let user_input := json_get body "input" in
     let api_key := json_get body "api_key" in
     if negb (truthy user_input) || negb (truthy api_key)
     then mret (jsonify [("error", JStr "Input and API key are required")] 400)
     else
       context ← texts_get api_key no_context;
       let messages :=
         [ {| role := "system"; content := JStr (system_content context) |};
           {| role := "user"; content := user_input |} ] in
       choices ← completions_create client
         {| model := "meta-llama/Meta-Llama-3.1-405B-Instruct-Turbo";
            messages := messages;
            max_tokens := 512;
            temperature := {| mantissa := 7; places := 1 |};
            top_p := {| mantissa := 7; places := 1 |};
            top_k := 50;
            repetition_penalty := 1;
            stop := ["<|eot_id|>"; "<|eom_id|>"] |};
       text ← first_choice choices;
       mret (jsonify [("response", JStr text)] 200))
    (λ e,
       match exn_cls e with
       | RequestException =>
           mret (jsonify [("error", JStr ("Network error: " +:+ exn_msg e))] 503)
       | cls =>
           (* a clause is tried by evaluating its class expression first;
              what that raises leaves the [try] statement *)
           match Together_APIError with
           | Raise attribute_error => raise attribute_error
           | Ok api_error =>
               match cls, api_error with
               | TogetherAPIError, TogetherAPIError =>
                   mret (jsonify
                           [("error",
                             JStr ("Together API error: " +:+ exn_msg e))] 500)
               | _, _ =>
                   mret (jsonify
                           [("error",
                             JStr ("Unexpected error: " +:+ exn_msg e))] 500)
               end
           end
       end).

(** [keys.remove(key)]: drops the first occurrence. *)
Fixpoint remove_first (key : string) (keys : list string) : list string :=
  match keys with
  | [] => []
  | k :: rest => if String.eqb k key then rest else k :: remove_first key rest
  end.

(** [api_key in api_keys], for a list of strings: only a string can be
    equal to one of its elements. *)
Definition json_in (v : json) (keys : list string) : option string :=
  match v with
  | JStr s => if bool_decide (s ∈ keys) then Some s else None
  | _ => None
  end.

Definition delete_api_key (db : db_env) (session : option nat)
    (body : gmap string json) : M response :=
  match session with
  | None => mret (jsonify [("error", JStr "User not logged in")] 401)
  | Some user_id =>
      let api_key := json_get body "api_key" in
      if negb (truthy api_key)
      then mret (jsonify [("error", JStr "No API key provided")] 400)
      else
        user ← query_get db user_id;
        keys ← loads_api_keys user;
        match json_in api_key keys with
        | Some key =>
            _ ← commit_api_keys db user_id (remove_first key keys);
            _ ← texts_pop key;
            mret (jsonify [("message", JStr "API key deleted successfully")] 200)
        | None => mret (jsonify [("error", JStr "API key not found")] 404)
        end
  end.

(** ** The rate limit in front of the decorated routes *)

(** Modelled from the spec: the counters of the flask_limiter package are
    not part of the source. A counting window of one client on one route
    (the RateWindow of section 3 of the specification). *)
Record window : Type := { w_start : nat; w_count : nat }.

(** Modelled from the spec: the window arithmetic of the flask_limiter
    package, after section 4.2 of the specification. What one more request
    does to a window: the verdict and the window afterwards. A window that
    has lasted [span] seconds since its first request is over, and the
    request opens the next one. *)
Definition hit (ceiling span : nat) (w : option window) (now : nat)
  : bool * window :=
  match w with
  | Some cur =>
      if now <? w_start cur + span
      then if w_count cur <? ceiling
           then (true, {| w_start := w_start cur; w_count := S (w_count cur) |})
           else (false, cur)
      else (true, {| w_start := now; w_count := 1 |})
  | None => (true, {| w_start := now; w_count := 1 |})
  end.

(** Modelled from the spec: the limiter is the flask_limiter package, which
    the source only configures ([Limiter(key_func=get_remote_address, ...)])
    and applies ([@limiter.limit("5 per minute")]). [Admit] follows section
    4.2 of the specification: per client identity and operation, requests
    are counted in a fixed window that starts at its first request; a
    request is admitted while the count is under the ceiling, admission
    increments the count, and a denial is a return value. Only the limit the
    route is decorated with is checked here. *)
Definition Admit (ceiling span : nat) (lim : gmap (string * string) window)
    (key : string * string) (now : nat)
  : bool * gmap (string * string) window :=
  let '(ok, w') := hit ceiling span (lim !! key) now in
  (ok, <[key := w']> lim).

(** The process: the handlers' world and the limiter's counters. *)
Record server : Type := {
  app : world;
  limiter : gmap (string * string) window
}.

Inductive call : Type :=
| ProcessUrl (env : ingest_env)
| Chat (client : completion_service).

(** A request to one of the two decorated routes. [remote_addr] is what
    [get_remote_address] returns for it, [arrival] the clock (in seconds)
    when it is admitted or denied. *)
Record request : Type := {
  remote_addr : string;
  arrival : nat;
  req_session : option nat;
  req_body : gmap string json;
  req_call : call
}.

Definition endpoint (c : call) : string :=
  match c with
  | ProcessUrl _ => "process_url"
  | Chat _ => "chat"
  end.

Definition rate_key (r : request) : string * string :=
  (remote_addr r, endpoint (req_call r)).

Definition handler (r : request) : M response :=
  match req_call r with
  | ProcessUrl env => process_url env (req_session r) (req_body r)
  | Chat client => chat client (req_session r) (req_body r)
  end.

Inductive outcome : Type :=
| RateLimited
| Served (r : result response).

(** [@limiter.limit("5 per minute")] around a view function: a request the
    limiter turns away does not reach the view. *)
Definition serve (s : server) (r : request) : outcome * server :=
  let '(ok, lim') := Admit 5 60 (limiter s) (rate_key r) (arrival r) in
  if ok
  then let '(res, w') := handler r (app s) in
       (Served res, {| app := w'; limiter := lim' |})
  else (RateLimited, {| app := app s; limiter := lim' |}).

Fixpoint serve_all (s : server) (rs : list request)
  : list outcome * server :=
  match rs with
  | [] => ([], s)
  | r :: rest =>
      let '(o, s') := serve s r in
      let '(os, s'') := serve_all s' rest in
      (o :: os, s'')
  end.

(** No window of [key] is running at time [now]. *)
Definition window_idle (lim : gmap (string * string) window)
    (key : string * string) (now : nat) : Prop :=
  match lim !! key with
  | None => True
  | Some w => w_start w + 60 ≤ now
  end.

(** ** Reading hexadecimal back, and what a run issues *)

Definition hex_value (c : ascii) : N :=
  match c with
  | "0" => 0 | "1" => 1 | "2" => 2 | "3" => 3 | "4" => 4 | "5" => 5
  | "6" => 6 | "7" => 7 | "8" => 8 | "9" => 9 | "a" => 10 | "b" => 11
  | "c" => 12 | "d" => 13 | "e" => 14 | "f" => 15 | _ => 0
  end%char%N.

(** Value of a digit list, least significant digit first. *)
Fixpoint unhex (cs : list ascii) : N :=
  match cs with
  | [] => 0
  | c :: rest => hex_value c + 16 * unhex rest
  end%N.

(** The UUIDs drawn while a list of requests is served, one per ingestion
    request. *)
Definition draws (rs : list request) : list N :=
  omap (λ r, match req_call r with
             | ProcessUrl env => Some (uuid4 env)
             | Chat _ => None
             end) rs.

(** [obj.get(name)] on a JSON object given by its members. *)
Fixpoint member (name : string) (obj : list (string * json)) : option json :=
  match obj with
  | [] => None
  | (k, v) :: rest => if String.eqb k name then Some v else member name rest
  end.

(** The key a response hands out: the [api_key] member of its payload. *)
Definition issued_key (o : outcome) : option string :=
  match o with
  | Served (Ok resp) =>
      match member "api_key" (payload resp) with
      | Some (JStr k) => Some k
      | _ => None
      end
  | _ => None
  end.

(** The text [process_url] stores for a request. *)
Definition ingested_text (env : ingest_env) (body : gmap string json)
  : option string :=
  match requests_get env (json_get body "url") with
  | Ok html => Some (join " " (paragraph_texts env html))
  | Raise _ => None
  end.

(** The fixed second half of the system message. *)
Definition response_policy : string :=
  nl +:+ nl +:+
  "Instructions for providing responses:" +:+ nl +:+
  "1. Start with a brief, direct answer to the user's question." +:+ nl +:+
  "2. If applicable, provide 2-3 key points or examples to support your answer."
  +:+ nl +:+
  "3. Use bullet points or numbered lists for clarity when appropriate."
  +:+ nl +:+
  "4. If the question is unclear, politely ask for clarification." +:+ nl +:+
  "5. Keep your total response under 150 words unless more detail is explicitly requested."
  +:+ nl +:+
  "6. End with a follow-up question or suggestion if relevant.".

(** The arguments of a completion request other than its messages. *)
Definition generation_parameters (req : completion_request)
  : string * Z * decimal * decimal * Z * Z * list string :=
  (model req, max_tokens req, temperature req, top_p req, top_k req,
   repetition_penalty req, stop req).

(** [w] with the text of [key] set, everything else as it is. *)
Definition with_text (key text : string) (w : world) : world :=
  {| extracted_texts := <[key := text]> (extracted_texts w);
     users := users w;
     upstream_log := upstream_log w |}.

(** Some step of the Registry update of [process_url] or [delete_api_key]
    raises: the row lookup, the read of the row's key list, or the commit. *)
Definition registry_update_fails (db : db_env) (w : world) (user_id : nat)
  : Prop :=
  query_error db ≠ None ∨ users w !! user_id = None ∨ commit_error db ≠ None.

(** The row [u] with one more key at the end of its list. *)
Definition with_key (u : User) (key : string) : User :=
  {| email := email u; password := password u;
     api_keys := api_keys u ++ [key] |}.

(** ** A small deployment to run the handlers on *)

Module Sample.

Definition alice : User :=
  {| email := "alice@example.org";
     password := "scrypt:32768:8:1$Zk1$9b2e";
     api_keys := [] |}.

Definition db_ok : db_env :=
  {| query_error := None; commit_error := None |}.

Definition db_locked : db_env :=
  {| query_error := None;
     commit_error := Some {| exn_cls := OtherException;
                             exn_msg := "database is locked" |} |}.

(** A site whose page has two paragraphs. *)
Definition page_env (db : db_env) (u : N) : ingest_env :=
  {| requests_get := λ _, Ok "<p>Opening hours</p><p>9 to 5</p>";
     paragraph_texts := λ _, ["Opening hours"; "9 to 5"];
     uuid4 := u;
     ingest_db := db |}.

Definition unreachable_env : ingest_env :=
  {| requests_get := λ _, Raise {| exn_cls := RequestException;
                                   exn_msg := "Connection refused" |};
     paragraph_texts := λ _, [];
     uuid4 := 9;
     ingest_db := db_ok |}.

Definition url_body : gmap string json :=
  {[ "url" := JStr "https://example.org/hours" ]}.

Definition started : world :=
  {| extracted_texts := ∅; users := {[ 1 := alice ]}; upstream_log := [] |}.

Definition boot : server := {| app := started; limiter := ∅ |}.

Definition key_2 : string := "user_00000000000000000000000000000002".
Definition key_c : string := "user_0000000000000000000000000000000c".

(** Alice has ingested one page, under [key_c]. *)
Definition serving : world :=
  {| extracted_texts := {[ key_c := "Opening hours 9 to 5" ]};
     users := {[ 1 := {| email := email alice; password := password alice;
                         api_keys := [key_c] |} ]};
     upstream_log := [] |}.

Definition answering : completion_service :=
  λ _, Ok ["We open at 9."].

Definition offline : completion_service :=
  λ _, Raise {| exn_cls := RequestException; exn_msg := "timed out" |}.

Definition chat_body (k : string) : gmap string json :=
  {[ "input" := JStr "When do you open?"; "api_key" := JStr k ]}.

Definition key_body (k : string) : gmap string json :=
  {[ "api_key" := JStr k ]}.

Definition ingest (addr : string) (now : nat) (u : N) : request :=
  {| remote_addr := addr; arrival := now; req_session := Some 1;
     req_body := url_body; req_call := ProcessUrl (page_env db_ok u) |}.

Definition ask (addr : string) (now : nat) (k : string) : request :=
  {| remote_addr := addr; arrival := now; req_session := None;
     req_body := chat_body k; req_call := Chat answering |}.

End Sample.

(** ** Running the handlers *)

Ltac run_in H :=
  unfold process_url, chat, delete_api_key, extract_text_from_url,
    try_except, lift, query_get, loads_api_keys, commit_api_keys, texts_set,
    texts_get, texts_pop, completions_create, first_choice, raise,
    mbind, M_bind, mret, M_ret in H;
  cbn beta iota zeta in H.

Ltac run :=
  unfold process_url, chat, delete_api_key, extract_text_from_url,
    try_except, lift, query_get, loads_api_keys, commit_api_keys, texts_set,
    texts_get, texts_pop, completions_create, first_choice, raise,
    mbind, M_bind, mret, M_ret;
  cbn beta iota zeta.

(** ** Listing the keys of the session's account *)

(** [get_user_api_keys]: the key list of the logged-in account, as a JSON
    array under ["api_keys"]. *)
Definition get_user_api_keys (db : db_env) (session : option nat)
  : M response :=
  match session with
  | None => mret (jsonify [("error", JStr "User not logged in")] 401)
  | Some user_id =>
      user ← query_get db user_id;
      keys ← loads_api_keys user;
      mret (jsonify [("api_keys", JArr (JStr <$> keys))] 200)
  end.

(** ** The script route *)

(** [s.startswith(old)] *)
Fixpoint starts_with (old s : string) : bool :=
  match old, s with
  | EmptyString, _ => true
  | String a old', String b s' => Ascii.eqb a b && starts_with old' s'
  | String _ _, EmptyString => false
  end.

(** [s.replace(old, new)] for a non-empty [old]: scanning from the left,
    each occurrence of [old] found becomes [new] and the scan resumes after
    it. [skip] counts the characters of a found occurrence still to pass. *)
Fixpoint replace_from (old new : string) (skip : nat) (s : string) : string :=
  match s with
  | EmptyString => EmptyString
  | String c rest =>
      match skip with
      | S k => replace_from old new k rest
      | O =>
          if starts_with old s
          then new +:+ replace_from old new (String.length old - 1) rest
          else String c (replace_from old new 0 rest)
      end
  end.

Definition str_replace (old new s : string) : string :=
  replace_from old new 0 s.

(** What [open(script_path, 'r')] followed by [file.read()] gives. *)
Inductive file_read : Type :=
| FileText (text : string)
| FileNotFoundError
| ReadError (e : exn).

(** What a view returns: a [jsonify] payload with its status, or a
    [Response(body, mimetype=...)]. *)
Inductive reply : Type :=
| JsonReply (r : response)
| BodyReply (body mimetype : string).

(** [chatbot_script]: [api_key] is [request.args.get('api_key')], [file]
    the outcome of reading [static/chatbot_script.js]. *)
Definition chatbot_script (api_key : option string) (file : file_read)
  : reply :=
  match api_key with
  | None => JsonReply (jsonify [("error", JStr "API key is required")] 400)
  | Some key =>
      if String.eqb key EmptyString
      then JsonReply (jsonify [("error", JStr "API key is required")] 400)
      else
        match file with
        | FileText script =>
            BodyReply (str_replace "{{API_KEY}}" key script)
                      "application/javascript"
        | FileNotFoundError =>
            JsonReply
              (jsonify [("error", JStr "Chatbot script file not found")] 404)
        | ReadError _ =>
            JsonReply (jsonify [("error", JStr "Internal server error")] 500)
        end
  end.

(** ** Runs of the handlers on one world *)

Inductive op : Type :=
| OpProcessUrl (env : ingest_env) (session : option nat)
    (body : gmap string json)
| OpChat (client : completion_service) (session : option nat)
    (body : gmap string json)
| OpDelete (db : db_env) (session : option nat) (body : gmap string json)
| OpListKeys (db : db_env) (session : option nat).

Definition run_op (o : op) : M response :=
  match o with
  | OpProcessUrl env session body => process_url env session body
  | OpChat client session body => chat client session body
  | OpDelete db session body => delete_api_key db session body
  | OpListKeys db session => get_user_api_keys db session
  end.

(** The world after a list of requests, served one after the other. *)
Fixpoint run_ops (w : world) (ops : list op) : world :=
  match ops with
  | [] => w
  | o :: rest => run_ops (run_op o w).2 rest
  end.

(** The UUIDs drawn along a run, one per ingestion request. *)
Definition op_draws (ops : list op) : list N :=
  omap (λ o, match o with
             | OpProcessUrl env _ _ => Some (uuid4 env)
             | _ => None
             end) ops.

(** A process that has just started: the dictionary is empty, as line 46
    of the source leaves it, and no account lists a key yet. *)
Definition fresh_start (w : world) : Prop :=
  extracted_texts w = ∅ ∧
  ∀ user_id u, users w !! user_id = Some u → api_keys u = [].

(** What stays true of the dictionary and the key lists along a run whose
    UUIDs so far are [drawn]. *)
Record well_keyed (drawn : list N) (w : world) : Prop := {
  wk_nodup : ∀ user_id u, users w !! user_id = Some u → NoDup (api_keys u);
  wk_listed : ∀ user_id u k,
    users w !! user_id = Some u → k ∈ api_keys u →
    k ∈ (λ d, "user_" +:+ uuid_hex d) <$> drawn;
  wk_apart : ∀ id1 id2 u1 u2 k,
    id1 ≠ id2 → users w !! id1 = Some u1 → users w !! id2 = Some u2 →
    k ∈ api_keys u1 → k ∉ api_keys u2;
  wk_stored : ∀ k,
    is_Some (extracted_texts w !! k) →
    k ∈ (λ d, "user_" +:+ uuid_hex d) <$> drawn;
  wk_resolves : ∀ user_id u k,
    users w !! user_id = Some u → k ∈ api_keys u →
    is_Some (extracted_texts w !! k)
}.

(** A lower-case hexadecimal digit. *)
Definition is_hex_digit (c : ascii) : bool :=
  let n := nat_of_ascii c in
  (48 <=? n) && (n <=? 57) || (97 <=? n) && (n <=? 102).

(** A value Python can hash, hence use as a dictionary key. *)
Definition hashable (v : json) : bool :=
  match v with
  | JArr _ | JObj _ => false
  | _ => true
  end.

(** The world a successful delete leaves. *)
Definition deleted_world (w : world) (user_id : nat) (u : User)
    (key : string) : world :=
  {| extracted_texts := delete key (extracted_texts w);
     users := <[user_id := {| email := email u; password := password u;
                              api_keys := remove_first key (api_keys u) |}]>
                (users w);
     upstream_log := upstream_log w |}.

(** The exception Python raises for [None.api_keys]. *)
Definition no_row_error : exn :=
  {| exn_cls := OtherException;
     exn_msg := "'NoneType' object has no attribute 'api_keys'" |}.

(** [old in s] *)
Fixpoint contains (old s : string) : bool :=
  starts_with old s ||
  match s with
  | EmptyString => false
  | String _ rest => contains old rest
  end.

(** ** A short run on the sample deployment *)

Module Demo.

Definition refused : exn :=
  {| exn_cls := RequestException; exn_msg := "Connection refused" |}.

Definition locked : exn :=
  {| exn_cls := OtherException; exn_msg := "database is locked" |}.

Definition alice_serving : User :=
  {| email := email Sample.alice; password := password Sample.alice;
     api_keys := [Sample.key_c] |}.

(** Alice ingests a page, deletes its key, asks for her list, ingests
    again; somebody chats with the deleted key in between. *)
Definition session_of_alice : list op :=
  [ OpProcessUrl (Sample.page_env Sample.db_ok 12) (Some 1) Sample.url_body;
    OpDelete Sample.db_ok (Some 1) (Sample.key_body Sample.key_c);
    OpChat Sample.answering None (Sample.chat_body Sample.key_c);
    OpListKeys Sample.db_ok (Some 1);
    OpProcessUrl (Sample.page_env Sample.db_ok 2) (Some 1) Sample.url_body ].

Definition script_head : string := "const apiKey = '".
Definition script_tail : string := "'; boot(apiKey);".

End Demo.

(** A key of the form the code issues: ["user_"] and 32 lower-case
    hexadecimal digits. *)
Definition well_formed_key (k : string) : Prop :=
  ∃ hex, k = "user_" +:+ hex ∧ String.length hex = 32 ∧
         Forall (λ c, is_hex_digit c = true) (list_ascii_of_string hex).

(** * Properties *)

(** ** Hexadecimal rendering is injective on 128-bit integers *)

Lemma hex_value_digit (d : N) : (d < 16)%N → hex_value (hex_digit d) = d.
Proof.
  intros Hd.
  assert (Hcases : (d = 0 ∨ d = 1 ∨ d = 2 ∨ d = 3 ∨ d = 4 ∨ d = 5 ∨ d = 6 ∨
                    d = 7 ∨ d = 8 ∨ d = 9 ∨ d = 10 ∨ d = 11 ∨ d = 12 ∨
                    d = 13 ∨ d = 14 ∨ d = 15)%N) by lia.
  repeat (destruct Hcases as [-> | Hcases]; [reflexivity |]).
  subst d. reflexivity.
Qed.

Lemma unhex_hex_digits (width : nat) :
  ∀ n : N, (n < 16 ^ N.of_nat width)%N → unhex (hex_digits width n) = n.
Proof.
  induction width as [| w IH]; intros n Hn.
  - simpl in *. lia.
  - cbn [hex_digits unhex].
    rewrite hex_value_digit by (apply N.mod_lt; lia).
    rewrite IH.
    + symmetry. rewrite N.add_comm. apply N.div_mod. lia.
    + rewrite Nat2N.inj_succ, N.pow_succ_r' in Hn.
      apply N.Div0.div_lt_upper_bound. lia.
Qed.

Lemma uuid_hex_inj (a b : N) :
  (a < uuid_bound)%N → (b < uuid_bound)%N → uuid_hex a = uuid_hex b → a = b.
Proof.
  unfold uuid_hex, uuid_bound. intros Ha Hb Heq.
  apply (f_equal list_ascii_of_string) in Heq.
  rewrite !list_ascii_of_string_of_list_ascii in Heq.
  apply (f_equal (@rev ascii)) in Heq.
  rewrite !rev_involutive in Heq.
  apply (f_equal unhex) in Heq.
  rewrite !unhex_hex_digits in Heq; [assumption | |];
    change (16 ^ N.of_nat 32)%N with (2 ^ 128)%N; assumption.
Qed.

Lemma user_key_inj (a b : N) :
  (a < uuid_bound)%N → (b < uuid_bound)%N →
  "user_" +:+ uuid_hex a = "user_" +:+ uuid_hex b → a = b.
Proof.
  intros Ha Hb Heq. apply uuid_hex_inj; try assumption.
  exact (String.app_inj "user_" _ _ Heq).
Qed.

(** A payload with an [api_key] member is the success payload, and by then
    the text is stored under that key. *)
Lemma process_url_issued env session body w resp w' v :
  process_url env session body w = (Ok resp, w') →
  member "api_key" (payload resp) = Some v →
  ∃ text,
    ingested_text env body = Some text ∧
    v = JStr ("user_" +:+ uuid_hex (uuid4 env)) ∧
    extracted_texts w' !! ("user_" +:+ uuid_hex (uuid4 env)) = Some text.
Proof.
  intros Hrun Hm. unfold ingested_text. run_in Hrun.
  repeat case_match; simplify_eq; cbn in Hm; try congruence.
  eexists; split; [reflexivity |]. split; [congruence |].
  cbn. apply lookup_insert_eq.
Qed.

Lemma chat_no_key client session body w r w' :
  chat client session body w = (r, w') →
  issued_key (Served r) = None.
Proof.
  intros Hrun. run_in Hrun.
  repeat case_match; simplify_eq; reflexivity.
Qed.

Lemma serve_issued s r o s' k :
  serve s r = (o, s') →
  issued_key o = Some k →
  ∃ env text,
    req_call r = ProcessUrl env ∧
    k = "user_" +:+ uuid_hex (uuid4 env) ∧
    ingested_text env (req_body r) = Some text ∧
    extracted_texts (app s') !! k = Some text.
Proof.
  unfold serve, handler. intros Hserve Hk.
  destruct (Admit 5 60 (limiter s) (rate_key r) (arrival r)) as [[] lim'];
    [| by simplify_eq].
  destruct (req_call r) as [env | client].
  - destruct (process_url env (req_session r) (req_body r) (app s))
      as [res w1] eqn:Hrun.
    simplify_eq. exists env.
    destruct res as [resp |]; [| discriminate]. cbn in Hk.
    destruct (member "api_key" (payload resp)) as [v |] eqn:Hm; [| discriminate].
    destruct (process_url_issued _ _ _ _ _ _ _ Hrun Hm) as (text & ? & -> & ?).
    exists text. simplify_eq. done.
  - destruct (chat client (req_session r) (req_body r) (app s))
      as [res w1] eqn:Hrun.
    simplify_eq. apply chat_no_key in Hrun. congruence.
Qed.

Lemma serve_all_snoc rs :
  ∀ s r,
    serve_all s (rs ++ [r])
    = ((serve_all s rs).1 ++ [(serve (serve_all s rs).2 r).1],
       (serve (serve_all s rs).2 r).2).
Proof.
  induction rs as [| r0 rest IH]; intros s r.
  - cbn. destruct (serve s r) as [o s1]. reflexivity.
  - change ((r0 :: rest) ++ [r]) with (r0 :: (rest ++ [r])).
    cbn [serve_all]. destruct (serve s r0) as [o s1]. rewrite IH.
    destruct (serve_all s1 rest) as [os s2]. reflexivity.
Qed.

(** The keys handed out along a run are renderings of the UUIDs drawn, in
    the order they were drawn. *)
Lemma issued_sublist_draws rs :
  ∀ s, (omap issued_key (serve_all s rs).1)
         `sublist_of` ((λ u, "user_" +:+ uuid_hex u) <$> draws rs).
Proof.
  induction rs as [| r rest IH]; intros s; [constructor |].
  cbn [serve_all].
  destruct (serve s r) as [o s1] eqn:Hserve.
  specialize (IH s1). destruct (serve_all s1 rest) as [os s2].
  unfold draws in *. simpl in *.
  destruct (issued_key o) as [k |] eqn:Hk.
  - destruct (serve_issued _ _ _ _ _ Hserve Hk) as (env & ? & Hcall & -> & _).
    rewrite Hcall. simpl. by apply sublist_skip.
  - destruct (req_call r); simpl; [by apply sublist_cons | done].
Qed.

(** C1. For every successful ingestion, the key it returns differs from
    every key issued before it in the run (the UUIDs drawn being pairwise
    different 128-bit integers), and a lookup of that key right afterwards,
    as [chat] does it, returns exactly the text that was stored. *)
Theorem put_key_unique_and_readable (s : server) (rs : list request)
    (r : request) (k : string) :
  NoDup (draws (rs ++ [r])) →
  Forall (λ u, (u < uuid_bound)%N) (draws (rs ++ [r])) →
  issued_key (serve (serve_all s rs).2 r).1 = Some k →
  (k ∉ omap issued_key (serve_all s rs).1) ∧
  ∃ env text,
    req_call r = ProcessUrl env ∧
    ingested_text env (req_body r) = Some text ∧
    extracted_texts (app (serve (serve_all s rs).2 r).2) !! k = Some text ∧
    texts_get (JStr k) no_context (app (serve (serve_all s rs).2 r).2)
      = (Ok text, app (serve (serve_all s rs).2 r).2).
Proof.
  intros Hnd Hbound Hk. split.
  - pose proof (issued_sublist_draws (rs ++ [r]) s) as Hsub.
    rewrite serve_all_snoc in Hsub. cbn [fst] in Hsub.
    rewrite omap_app in Hsub. cbn [omap list_omap] in Hsub.
    rewrite Hk in Hsub.
    apply sublist_NoDup in Hsub.
    + apply NoDup_app in Hsub as (_ & Hdisj & _).
      intros Hin. apply (Hdisj k Hin). constructor.
    + apply NoDup_fmap_2_strong; [| assumption].
      intros x y Hx Hy. rewrite Forall_forall in Hbound.
      apply user_key_inj; apply Hbound; assumption.
  - destruct (serve (serve_all s rs).2 r) as [o s2] eqn:Hserve.
    cbn [fst snd] in *.
    destruct (serve_issued _ _ _ _ _ Hserve Hk) as (env & text & ? & ? & ? & Hl).
    exists env, text. repeat split; try assumption.
    unfold texts_get. by rewrite Hl.
Qed.

(** ** The chat handler *)

Lemma truthy_str (k : string) : truthy (JStr k) = true ↔ k ≠ EmptyString.
Proof.
  cbn. destruct (String.eqb_spec k EmptyString); cbn; split; congruence.
Qed.

Lemma system_content_split (context : string) :
  system_content context
  = "You are a helpful AI assistant trained on the following website content: "
    +:+ context +:+ response_policy.
Proof. reflexivity. Qed.

(** C2. A chat request whose key names no entry of the dictionary is
    answered as if the key stored the placeholder text: the system message
    sent upstream embeds the placeholder, the outcome is the one a stored
    placeholder would give, no answer has status 404, what the completion
    service returns is the response, and a network failure of the service is
    answered with 503. The only exception that can leave the view is the
    attribute error of the second [except] clause, and only when the
    completion call itself gave no choice; the missing key never raises. *)
Theorem chat_absent_key_uses_placeholder (client : completion_service)
    (session : option nat) (body : gmap string json) (w : world) (k : string) :
  truthy (json_get body "input") = true →
  json_get body "api_key" = JStr k →
  k ≠ EmptyString →
  extracted_texts w !! k = None →
  ∃ req,
    (chat client session body w).2
    = {| extracted_texts := extracted_texts w;
         users := users w;
         upstream_log := upstream_log w ++ [req] |} ∧
    messages req
    = [ {| role := "system"; content := JStr (system_content no_context) |};
        {| role := "user"; content := json_get body "input" |} ] ∧
    (chat client session body w).1
    = (chat client session body (with_text k no_context w)).1 ∧
    (∀ resp, (chat client session body w).1 = Ok resp → status resp ≠ 404) ∧
    (∀ text rest, client req = Ok (text :: rest) →
                  (chat client session body w).1
                  = Ok (jsonify [("response", JStr text)] 200)) ∧
    (∀ e, client req = Raise e → exn_cls e = RequestException →
          (chat client session body w).1
          = Ok (jsonify [("error", JStr ("Network error: " +:+ exn_msg e))]
                        503)) ∧
    (∀ e, (chat client session body w).1 = Raise e →
          e = no_APIError ∧ ∀ text rest, client req ≠ Ok (text :: rest)).
Proof.
  intros Hin Hkey Hk Habs. apply truthy_str in Hk.
  run. rewrite Hkey, Hin, Hk. cbn -[system_content no_context].
  rewrite Habs, lookup_insert_eq. cbn -[system_content no_context].
  match goal with |- context [client ?r] => set (req := r) end.
  exists req.
  destruct (client req) as [[| text rest] | [[] msg]] eqn:Hc;
    cbn -[system_content no_context];
    repeat split; intros; simplify_eq; cbn in *;
    try discriminate; try congruence; try lia; reflexivity.
Qed.

Lemma missing_field_falsy (body : gmap string json) (name : string) :
  body !! name = None → truthy (json_get body name) = false.
Proof. intros H. unfold json_get. by rewrite H. Qed.

Ltac chat_settle :=
  cbn -[system_content no_context];
  repeat split; intros;
  repeat match goal with
    | H : _ ∨ _ |- _ => destruct H as [H | H]
    | H : ?b !! ?n = None, Hm : ?b !! ?n = None → _ |- _ => apply Hm in H
    | H : [_] = [_] |- _ => injection H as <-
    | H : [] = [_] |- _ => discriminate H
    | H1 : ?x = Raise _, H2 : ?x = Raise _ |- _ =>
        rewrite H1 in H2; injection H2 as <-
    | H1 : ?x = Ok _, H2 : ?x = Ok _ |- _ =>
        rewrite H1 in H2; injection H2 as <- <-
    | H : Ok _ = Ok _ |- _ => injection H as <-
    | H : Raise _ = Raise _ |- _ => injection H as <-
    end;
  cbn [exn_cls exn_msg status jsonify hashable fst snd] in *;
  try discriminate; try congruence; try lia; try reflexivity.

(** C6, as the code has it. POST /chat answers 400 with an error payload
    when [input] or [api_key] is missing, 503 with an error payload when the
    completion call raises a network error, and the text of the first choice
    under [response] when the call succeeds. Every other failure is not
    answered with 500 and an error payload: the second [except] clause
    raises an attribute error before the third is reached, and that
    exception leaves the view. So it is for a key sent as a JSON array,
    whatever the completion service does; and no answer of [chat] has
    status 500. *)
Theorem chat_other_failure_escapes (client : completion_service)
    (session : option nat) (body : gmap string json) (w : world) :
  chat client session
    {[ "input" := JStr "hi"; "api_key" := JArr [JStr "k"] ]} w
  = (Raise no_APIError, w) ∧
  ∃ sent,
    upstream_log (chat client session body w).2 = upstream_log w ++ sent ∧
    (body !! "input" = None ∨ body !! "api_key" = None →
     (chat client session body w).1
     = Ok (jsonify [("error", JStr "Input and API key are required")] 400)) ∧
    (∀ req e, sent = [req] → client req = Raise e →
              exn_cls e = RequestException →
              (chat client session body w).1
              = Ok (jsonify
                      [("error", JStr ("Network error: " +:+ exn_msg e))] 503)) ∧
    (∀ req text rest, sent = [req] → client req = Ok (text :: rest) →
                      (chat client session body w).1
                      = Ok (jsonify [("response", JStr text)] 200)) ∧
    (∀ req e, sent = [req] → client req = Raise e →
              exn_cls e ≠ RequestException →
              (chat client session body w).1 = Raise no_APIError) ∧
    (∀ req, sent = [req] → client req = Ok [] →
            (chat client session body w).1 = Raise no_APIError) ∧
    (truthy (json_get body "input") = true →
     truthy (json_get body "api_key") = true →
     hashable (json_get body "api_key") = false →
     (chat client session body w).1 = Raise no_APIError) ∧
    (∀ resp, (chat client session body w).1 = Ok resp → status resp ≠ 500) ∧
    (∀ e, (chat client session body w).1 = Raise e → e = no_APIError).
Proof.
  split; [reflexivity |].
  pose proof (missing_field_falsy body "input") as Hmi.
  pose proof (missing_field_falsy body "api_key") as Hmk.
  run.
  destruct (truthy (json_get body "input")) eqn:Hin;
    destruct (truthy (json_get body "api_key")) eqn:Hkey;
    cbn -[system_content no_context];
    try solve [exists []; rewrite app_nil_r; chat_settle].
  destruct (json_get body "api_key") as [| b | n | k | items | fields];
    cbn -[system_content no_context]; try discriminate Hkey;
    try solve [exists []; rewrite app_nil_r; chat_settle];
    match goal with |- context [client ?r] => set (req := r) end;
    destruct (client req) as [[| text rest] | [[] msg]] eqn:Hc;
    cbn -[system_content no_context];
    exists [req]; chat_settle.
Qed.

(** C7. When [chat] reaches the completion service, it sends exactly two
    messages: a system message made of the fixed preamble, the resolved
    context (the stored text, or the placeholder when the key has none) and
    the fixed response policy, then the user's own input. The other
    arguments of the call are constants. The text of the first choice the
    service returns is the response, unchanged. *)
Theorem chat_dispatch (client : completion_service) (session : option nat)
    (body : gmap string json) (w : world) (context : string) :
  truthy (json_get body "input") = true →
  truthy (json_get body "api_key") = true →
  texts_get (json_get body "api_key") no_context w = (Ok context, w) →
  ∃ req,
    upstream_log (chat client session body w).2 = upstream_log w ++ [req] ∧
    messages req
      = [ {| role := "system";
             content :=
               JStr ("You are a helpful AI assistant trained on the following website content: "
                     +:+ context +:+ response_policy) |};
          {| role := "user"; content := json_get body "input" |} ] ∧
    generation_parameters req
      = ("meta-llama/Meta-Llama-3.1-405B-Instruct-Turbo", 512%Z,
         {| mantissa := 7; places := 1 |}, {| mantissa := 7; places := 1 |},
         50%Z, 1%Z, ["<|eot_id|>"; "<|eom_id|>"]) ∧
    (∀ k, json_get body "api_key" = JStr k →
          context = default no_context (extracted_texts w !! k)) ∧
    (∀ text rest, client req = Ok (text :: rest) →
                  (chat client session body w).1
                  = Ok (jsonify [("response", JStr text)] 200)).
Proof.
  intros Hin Hkey Hctx. run. run_in Hctx. rewrite Hin, Hkey.
  cbn -[system_content no_context].
  destruct (json_get body "api_key") as [| b | n | k | items | fields];
    simplify_eq; cbn -[system_content no_context];
    match goal with |- context [upstream_log w ++ [?r]] => exists r end;
    destruct (client _) as [[| text rest] | [[] msg]] eqn:Hc;
    cbn -[system_content no_context];
    repeat split; intros; simplify_eq; reflexivity.
Qed.

(** C9. [chat] looks neither at the session nor at the accounts: two
    requests with the same [input], the same [api_key] and the same
    dictionary get the same outcome and send the same request upstream,
    whoever is logged in and whatever the [User] table holds. *)
Theorem chat_ignores_session (client : completion_service)
    (session1 session2 : option nat) (body1 body2 : gmap string json)
    (w1 w2 : world) :
  body1 !! "input" = body2 !! "input" →
  body1 !! "api_key" = body2 !! "api_key" →
  extracted_texts w1 = extracted_texts w2 →
  (chat client session1 body1 w1).1 = (chat client session2 body2 w2).1 ∧
  ∃ sent,
    upstream_log (chat client session1 body1 w1).2 = upstream_log w1 ++ sent ∧
    upstream_log (chat client session2 body2 w2).2 = upstream_log w2 ++ sent.
Proof.
  intros Hin Hkey Htexts. run. unfold json_get. rewrite Hin, Hkey.
  destruct (truthy (default JNull (body2 !! "input")));
    destruct (truthy (default JNull (body2 !! "api_key")));
    cbn -[system_content no_context].
  2-4: split; [reflexivity |]; exists []; by rewrite !app_nil_r.
  destruct (default JNull (body2 !! "api_key"))
    as [| b | n | k | items | fields];
    cbn -[system_content no_context]; rewrite ?Htexts;
    try (split; [reflexivity |]; exists []; by rewrite !app_nil_r);
    destruct (client _) as [[| text rest] | [[] msg]];
    cbn -[system_content no_context];
    (split; [reflexivity |]); eexists [_]; split; reflexivity.
Qed.

(** C10. Handling POST /chat changes neither the dictionary of extracted
    texts nor any account's row, whether the request is turned away by the
    rate limit, rejected, failed upstream or answered. *)
Theorem chat_leaves_state (s : server) (addr : string) (now : nat)
    (session : option nat) (body : gmap string json)
    (client : completion_service) :
  let r := {| remote_addr := addr; arrival := now; req_session := session;
              req_body := body; req_call := Chat client |} in
  extracted_texts (app (serve s r).2) = extracted_texts (app s) ∧
  users (app (serve s r).2) = users (app s) ∧
  extracted_texts (chat client session body (app s)).2
    = extracted_texts (app s) ∧
  users (chat client session body (app s)).2 = users (app s).
Proof.
  assert (Hframe : ∀ w,
    extracted_texts (chat client session body w).2 = extracted_texts w ∧
    users (chat client session body w).2 = users w).
  { intros w. run.
    destruct (truthy (json_get body "input"));
      destruct (truthy (json_get body "api_key"));
      cbn -[system_content no_context]; try done.
    destruct (json_get body "api_key") as [| b | n | k | items | fields];
      cbn -[system_content no_context]; try done;
      destruct (client _) as [[| text rest] | [[] msg]];
      cbn -[system_content no_context]; done. }
  intros r. destruct (Hframe (app s)) as [Ht Hu].
  repeat split; try assumption;
    unfold serve, handler; cbn [req_call req_session req_body r];
    (destruct (Admit 5 60 (limiter s) (rate_key r) (arrival r)) as [[] lim'];
     [| reflexivity]);
    destruct (chat client session body (app s)) as [res w']; assumption.
Qed.

(** ** The ingestion handler *)

Lemma alter_found {A : Type} (f : A → A) (m : gmap nat A) (i : nat) (x : A) :
  m !! i = Some x → alter f i m = <[i := f x]> m.
Proof.
  intros Hx. apply map_eq. intros j.
  rewrite lookup_alter, lookup_insert.
  repeat case_decide; simplify_eq; by rewrite ?Hx.
Qed.

(** Every way [process_url] can end, for a logged-in request with a URL. *)
Lemma process_url_paths env user_id body w :
  truthy (json_get body "url") = true →
  let key := "user_" +:+ uuid_hex (uuid4 env) in
  match ingested_text env body with
  | None =>
      ∃ msg, process_url env (Some user_id) body w
             = (Ok (jsonify [("error", JStr msg)] 500), w)
  | Some text =>
      (registry_update_fails (ingest_db env) w user_id ∧
       ∃ msg, process_url env (Some user_id) body w
              = (Ok (jsonify [("error", JStr msg)] 500), with_text key text w))
      ∨
      (∃ u, ¬ registry_update_fails (ingest_db env) w user_id ∧
            users w !! user_id = Some u ∧
            process_url env (Some user_id) body w
            = (Ok (jsonify [("message", JStr "Processing complete");
                            ("api_key", JStr key);
                            ("integration_code",
                             JStr (generate_integration_code key))] 200),
               {| extracted_texts := <[key := text]> (extracted_texts w);
                  users := <[user_id := with_key u key]> (users w);
                  upstream_log := upstream_log w |}))
  end.
Proof.
  intros Hurl key. unfold ingested_text, registry_update_fails. run.
  rewrite Hurl. cbn.
  destruct (requests_get env (json_get body "url")) as [html | e]; cbn;
    [| by eexists].
  destruct (query_error (ingest_db env)) as [e |] eqn:Hq; cbn.
  { left. split; [by left | by eexists]. }
  destruct (users w !! user_id) as [u |] eqn:Hu; cbn.
  2: { left. split; [by right; left | by eexists]. }
  destruct (commit_error (ingest_db env)) as [e |] eqn:Hcm; cbn.
  { left. split; [by right; right | by eexists]. }
  right. exists u. split; [intros [? | [? | ?]]; congruence |].
  split; [reflexivity |].
  by rewrite (alter_found _ _ _ _ Hu).
Qed.

Lemma process_url_anonymous env body w :
  process_url env None body w
  = (Ok (jsonify [("error", JStr "User not logged in")] 401), w).
Proof. reflexivity. Qed.

Lemma process_url_no_url env user_id body w :
  truthy (json_get body "url") = false →
  process_url env (Some user_id) body w
  = (Ok (jsonify [("error", JStr "No URL provided")] 400), w).
Proof. intros Hurl. run. by rewrite Hurl. Qed.



(** ** The rate limit *)

Lemma Admit_lookup ceiling span lim key now :
  (Admit ceiling span lim key now).1 = (hit ceiling span (lim !! key) now).1 ∧
  (Admit ceiling span lim key now).2 !! key
  = Some (hit ceiling span (lim !! key) now).2.
Proof.
  unfold Admit. destruct (hit ceiling span (lim !! key) now) as [ok w'].
  cbn. by rewrite lookup_insert_eq.
Qed.

Lemma Admit_other ceiling span lim key key' now :
  key' ≠ key →
  (Admit ceiling span lim key' now).2 !! key = lim !! key.
Proof.
  intros Hne. unfold Admit.
  destruct (hit ceiling span (lim !! key') now) as [ok w'].
  cbn. by rewrite lookup_insert_ne.
Qed.

Lemma serve_limiter s r :
  limiter (serve s r).2 = (Admit 5 60 (limiter s) (rate_key r) (arrival r)).2.
Proof.
  unfold serve.
  destruct (Admit 5 60 (limiter s) (rate_key r) (arrival r)) as [[] lim'];
    [| reflexivity].
  by destruct (handler r (app s)).
Qed.

Lemma serve_admitted s r :
  (Admit 5 60 (limiter s) (rate_key r) (arrival r)).1 = true →
  (serve s r).1 ≠ RateLimited.
Proof.
  unfold serve.
  destruct (Admit 5 60 (limiter s) (rate_key r) (arrival r)) as [[] lim'];
    [| discriminate].
  by destruct (handler r (app s)).
Qed.

Lemma serve_denied s r :
  (Admit 5 60 (limiter s) (rate_key r) (arrival r)).1 = false →
  (serve s r).1 = RateLimited ∧ app (serve s r).2 = app s.
Proof.
  unfold serve.
  destruct (Admit 5 60 (limiter s) (rate_key r) (arrival r)) as [[] lim'];
    [discriminate | done].
Qed.

(** Requests of other clients, or to the other route, leave a client's
    window alone. *)
Lemma serve_all_others key rs :
  ∀ s, Forall (λ r, rate_key r ≠ key) rs →
       limiter (serve_all s rs).2 !! key = limiter s !! key.
Proof.
  induction rs as [| r rest IH]; intros s Hall; [reflexivity |].
  inversion Hall as [| ? ? Hr Hrest]; subst.
  cbn [serve_all].
  destruct (serve s r) as [o s1] eqn:Hserve.
  specialize (IH s1 Hrest). destruct (serve_all s1 rest) as [os s2].
  cbn [snd] in *. rewrite IH.
  replace s1 with (serve s r).2 by (by rewrite Hserve).
  rewrite serve_limiter. by apply Admit_other.
Qed.

(** While a client's window is running and has room, each of its requests
    is admitted and counted. *)
Lemma serve_all_in_window key rs :
  ∀ s start count,
    limiter s !! key = Some {| w_start := start; w_count := count |} →
    Forall (λ r, rate_key r = key → arrival r < start + 60) rs →
    count + length (filter (λ r, rate_key r = key) rs) ≤ 5 →
    Forall2 (λ r o, rate_key r = key → o ≠ RateLimited)
            rs (serve_all s rs).1 ∧
    limiter (serve_all s rs).2 !! key
    = Some {| w_start := start;
              w_count := count + length (filter (λ r, rate_key r = key) rs) |}.
Proof.
  induction rs as [| r rest IH]; intros s start count Hwin Hall Hroom.
  - cbn. split; [constructor |]. by rewrite Nat.add_0_r.
  - inversion Hall as [| ? ? Hr Hrest]; subst.
    cbn [serve_all].
    destruct (serve s r) as [o s1] eqn:Hserve.
    assert (Hs1 : s1 = (serve s r).2) by (by rewrite Hserve).
    assert (Ho : o = (serve s r).1) by (by rewrite Hserve).
    destruct (decide (rate_key r = key)) as [Hmine | Hother].
    + rewrite filter_cons_True in Hroom |- * by assumption.
      cbn [length] in Hroom |- *.
      destruct (Admit_lookup 5 60 (limiter s) (rate_key r) (arrival r))
        as [Hok Hnext].
      rewrite Hmine, Hwin in Hok, Hnext. unfold hit in Hok, Hnext.
      cbn [w_start w_count] in Hok, Hnext.
      specialize (Hr Hmine).
      destruct (Nat.ltb_spec (arrival r) (start + 60)); [| lia].
      destruct (Nat.ltb_spec count 5); [| lia].
      cbn [fst snd] in Hok, Hnext.
      destruct (IH s1 start (S count)) as [Houts Hlim];
        [rewrite Hs1, serve_limiter, Hmine; exact Hnext | assumption | lia |].
      destruct (serve_all s1 rest) as [os s2]. cbn [fst snd] in *.
      split.
      * constructor; [| assumption]. intros _. rewrite Ho.
        apply serve_admitted. by rewrite Hmine.
      * rewrite Hlim. do 2 f_equal. lia.
    + rewrite filter_cons_False in Hroom |- * by assumption.
      destruct (IH s1 start count) as [Houts Hlim];
        [| assumption | assumption |].
      { rewrite Hs1, serve_limiter. by rewrite Admit_other. }
      destruct (serve_all s1 rest) as [os s2]. cbn [fst snd] in *.
      split; [| assumption].
      constructor; [| assumption]. intros Hmine. contradiction.
Qed.

(** C3. A client's first request to a decorated route opens a window; its
    next four requests within 60 seconds are admitted like the first, its
    sixth within those 60 seconds is turned away, and serving the denied
    request leaves the handlers' world as it was, so that no key is issued
    and no text is stored for it. Once 60 seconds have passed since the
    first request, the client's next request is admitted again. Requests of
    other clients, or to the other route, may come in between. *)
Theorem sixth_request_denied (s : server) (key : string * string)
    (r1 : request) (rs : list request) (r6 : request)
    (others : list request) (r7 : request) :
  rate_key r1 = key → rate_key r6 = key → rate_key r7 = key →
  window_idle (limiter s) key (arrival r1) →
  length (filter (λ r, rate_key r = key) rs) = 4 →
  Forall (λ r, rate_key r = key → arrival r < arrival r1 + 60) rs →
  arrival r6 < arrival r1 + 60 →
  Forall (λ r, rate_key r ≠ key) others →
  arrival r1 + 60 ≤ arrival r7 →
  let s5 := (serve_all s (r1 :: rs)).2 in
  let s6 := (serve s5 r6).2 in
  let s7 := (serve_all s6 others).2 in
  Forall2 (λ r o, rate_key r = key → o ≠ RateLimited)
          (r1 :: rs) (serve_all s (r1 :: rs)).1 ∧
  (serve s5 r6).1 = RateLimited ∧
  issued_key (serve s5 r6).1 = None ∧
  app s6 = app s5 ∧
  (serve s7 r7).1 ≠ RateLimited.
Proof.
  intros H1 H6 H7 Hidle Hfour Hin H6in Hothers H7out s5 s6 s7.
  (* the first request opens the window *)
  destruct (Admit_lookup 5 60 (limiter s) (rate_key r1) (arrival r1))
    as [Hok1 Hnext1].
  rewrite H1 in Hok1, Hnext1.
  assert (Hhit1 : hit 5 60 (limiter s !! key) (arrival r1)
                  = (true, {| w_start := arrival r1; w_count := 1 |})).
  { unfold window_idle in Hidle. unfold hit.
    destruct (limiter s !! key) as [cur |]; [| reflexivity].
    destruct (Nat.ltb_spec (arrival r1) (w_start cur + 60)); [lia | done]. }
  rewrite Hhit1 in Hok1, Hnext1. cbn [fst snd] in Hok1, Hnext1.
  (* the next four fill it *)
  destruct (serve s r1) as [o1 s1] eqn:Hserve1.
  assert (Hs1 : s1 = (serve s r1).2) by (by rewrite Hserve1).
  assert (Ho1 : o1 = (serve s r1).1) by (by rewrite Hserve1).
  destruct (serve_all_in_window key rs s1 (arrival r1) 1) as [Houts Hlim5];
    [rewrite Hs1, serve_limiter, H1; exact Hnext1 | assumption | lia |].
  rewrite Hfour in Hlim5. cbn [Nat.add] in Hlim5.
  assert (Hs5 : s5 = (serve_all s1 rs).2).
  { subst s5. cbn [serve_all]. rewrite Hserve1.
    by destruct (serve_all s1 rs). }
  assert (Hfirst : Forall2 (λ r o, rate_key r = key → o ≠ RateLimited)
                           (r1 :: rs) (serve_all s (r1 :: rs)).1).
  { cbn [serve_all]. rewrite Hserve1.
    destruct (serve_all s1 rs) as [os s5']. cbn [fst] in *.
    constructor; [| assumption]. intros _. rewrite Ho1.
    apply serve_admitted. by rewrite H1. }
  (* the sixth finds it full *)
  destruct (Admit_lookup 5 60 (limiter s5) (rate_key r6) (arrival r6))
    as [Hok6 Hnext6].
  rewrite H6, Hs5, Hlim5 in Hok6, Hnext6. rewrite <- Hs5 in Hok6, Hnext6.
  unfold hit in Hok6, Hnext6. cbn [w_start w_count] in Hok6, Hnext6.
  destruct (Nat.ltb_spec (arrival r6) (arrival r1 + 60)); [| lia].
  cbn [Nat.ltb Nat.leb fst snd] in Hok6, Hnext6.
  rewrite <- H6 in Hok6 at 1.
  destruct (serve_denied s5 r6 Hok6) as [Hden Happ].
  (* and the seventh, a new window *)
  assert (Hlim7 : limiter s7 !! key
                  = Some {| w_start := arrival r1; w_count := 5 |}).
  { subst s7. rewrite serve_all_others by assumption.
    subst s6. rewrite serve_limiter. by rewrite H6. }
  destruct (Admit_lookup 5 60 (limiter s7) (rate_key r7) (arrival r7))
    as [Hok7 _].
  rewrite H7, Hlim7 in Hok7. unfold hit in Hok7.
  cbn [w_start w_count] in Hok7.
  destruct (Nat.ltb_spec (arrival r7) (arrival r1 + 60)); [lia |].
  cbn [fst] in Hok7. rewrite <- H7 in Hok7 at 1.
  repeat split; try assumption.
  - by rewrite Hden.
  - by apply serve_admitted.
Qed.

(** ** Deleting a key *)

Lemma remove_first_gone key keys :
  NoDup keys → key ∉ remove_first key keys.
Proof.
  induction 1 as [| k rest Hk Hnd IH]; cbn; [apply not_elem_of_nil |].
  destruct (String.eqb_spec k key) as [-> | Hne]; [assumption |].
  intros [Heq | Hrest]%elem_of_cons; [congruence | contradiction].
Qed.

Lemma delete_api_key_unlisted db user_id body w u :
  query_error db = None →
  users w !! user_id = Some u →
  truthy (json_get body "api_key") = true →
  json_in (json_get body "api_key") (api_keys u) = None →
  delete_api_key db (Some user_id) body w
  = (Ok (jsonify [("error", JStr "API key not found")] 404), w).
Proof.
  intros Hq Hu Hkey Hin. run. rewrite Hkey, Hq. cbn -[json_in].
  rewrite Hu. cbn -[json_in]. by rewrite Hin.
Qed.

Lemma delete_api_key_listed db user_id body w u key :
  query_error db = None →
  commit_error db = None →
  users w !! user_id = Some u →
  json_get body "api_key" = JStr key →
  key ≠ EmptyString →
  key ∈ api_keys u →
  delete_api_key db (Some user_id) body w
  = (Ok (jsonify [("message", JStr "API key deleted successfully")] 200),
     {| extracted_texts := delete key (extracted_texts w);
        users := <[user_id := {| email := email u; password := password u;
                                 api_keys := remove_first key (api_keys u) |}]>
                   (users w);
        upstream_log := upstream_log w |}).
Proof.
  intros Hq Hcm Hu Hbody Hne Hin. apply truthy_str in Hne.
  run. rewrite Hbody, Hne, Hq. cbn. rewrite Hu. cbn.
  rewrite bool_decide_true by assumption. rewrite Hcm. cbn.
  by rewrite (alter_found _ _ _ _ Hu).
Qed.

(** C4, as amended. For a key that the logged-in account's list holds
    (once), two delete requests in a row report the removal the first time,
    with status 200, and not the second time, which answers "API key not
    found" with status 404. The first call takes the key out of the list
    and out of the dictionary; the second raises nothing and changes
    nothing. Underneath, [extracted_texts.pop(key, None)] on a key it has
    just removed returns [None] and raises nothing. *)
Theorem delete_twice (db : db_env) (user_id : nat) (body : gmap string json)
    (w : world) (u : User) (key : string) :
  query_error db = None →
  commit_error db = None →
  users w !! user_id = Some u →
  json_get body "api_key" = JStr key →
  key ≠ EmptyString →
  key ∈ api_keys u →
  NoDup (api_keys u) →
  let first := delete_api_key db (Some user_id) body w in
  let second := delete_api_key db (Some user_id) body first.2 in
  first.1 = Ok (jsonify [("message", JStr "API key deleted successfully")] 200) ∧
  extracted_texts first.2 !! key = None ∧
  (∃ u', users first.2 !! user_id = Some u' ∧ key ∉ api_keys u') ∧
  second.1 = Ok (jsonify [("error", JStr "API key not found")] 404) ∧
  second.2 = first.2 ∧
  texts_pop key (texts_pop key w).2 = (Ok None, (texts_pop key w).2).
Proof.
  intros Hq Hcm Hu Hbody Hne Hin Hnd first second. subst second first.
  rewrite (delete_api_key_listed db user_id body w u key) by assumption.
  cbn [fst snd].
  set (u' := {| email := email u; password := password u;
                api_keys := remove_first key (api_keys u) |}).
  set (w1 := {| extracted_texts := delete key (extracted_texts w);
                users := <[user_id := u']> (users w);
                upstream_log := upstream_log w |}).
  assert (Hgone : key ∉ api_keys u') by (by apply remove_first_gone).
  rewrite (delete_api_key_unlisted db user_id body w1 u').
  - cbn [fst snd]. repeat split.
    + apply lookup_delete_eq.
    + exists u'. split; [apply lookup_insert_eq | assumption].
    + unfold texts_pop. cbn. rewrite lookup_delete_eq.
      by rewrite (delete_id (delete key (extracted_texts w)) key)
        by apply lookup_delete_eq.
  - assumption.
  - apply lookup_insert_eq.
  - rewrite Hbody. by apply truthy_str.
  - rewrite Hbody. cbn. by rewrite bool_decide_false.
Qed.

(** ** The properties at work on the sample deployment *)

Lemma put_key_unique_and_readable_witness :
  issued_key
    (serve (serve_all Sample.boot [Sample.ingest "10.0.0.1" 0 1]).2
           (Sample.ingest "10.0.0.1" 1 2)).1 = Some Sample.key_2 ∧
  (Sample.key_2
     ∉ omap issued_key
         (serve_all Sample.boot [Sample.ingest "10.0.0.1" 0 1]).1) ∧
  ∃ env text,
    req_call (Sample.ingest "10.0.0.1" 1 2) = ProcessUrl env ∧
    ingested_text env (req_body (Sample.ingest "10.0.0.1" 1 2)) = Some text ∧
    extracted_texts
      (app (serve (serve_all Sample.boot [Sample.ingest "10.0.0.1" 0 1]).2
                  (Sample.ingest "10.0.0.1" 1 2)).2) !! Sample.key_2
    = Some text ∧
    texts_get (JStr Sample.key_2) no_context
      (app (serve (serve_all Sample.boot [Sample.ingest "10.0.0.1" 0 1]).2
                  (Sample.ingest "10.0.0.1" 1 2)).2)
    = (Ok text,
       app (serve (serve_all Sample.boot [Sample.ingest "10.0.0.1" 0 1]).2
                  (Sample.ingest "10.0.0.1" 1 2)).2).
Proof.
  split; [vm_compute; reflexivity |].
  apply (put_key_unique_and_readable Sample.boot
           [Sample.ingest "10.0.0.1" 0 1] (Sample.ingest "10.0.0.1" 1 2)
           Sample.key_2).
  - apply (bool_decide_unpack _). vm_compute. exact I.
  - apply (bool_decide_unpack _). vm_compute. exact I.
  - vm_compute. reflexivity.
Defined.

Lemma chat_absent_key_uses_placeholder_witness :
  Sample.started.(extracted_texts) !! Sample.key_2 = None ∧
  ∃ req,
    (chat Sample.answering None (Sample.chat_body Sample.key_2)
          Sample.started).2
    = {| extracted_texts := extracted_texts Sample.started;
         users := users Sample.started;
         upstream_log := upstream_log Sample.started ++ [req] |} ∧
    messages req
    = [ {| role := "system"; content := JStr (system_content no_context) |};
        {| role := "user";
           content := json_get (Sample.chat_body Sample.key_2) "input" |} ] ∧
    (chat Sample.answering None (Sample.chat_body Sample.key_2)
          Sample.started).1
    = (chat Sample.answering None (Sample.chat_body Sample.key_2)
            (with_text Sample.key_2 no_context Sample.started)).1 ∧
    (∀ resp,
       (chat Sample.answering None (Sample.chat_body Sample.key_2)
             Sample.started).1 = Ok resp →
       status resp ≠ 404) ∧
    (∀ text rest, Sample.answering req = Ok (text :: rest) →
                  (chat Sample.answering None (Sample.chat_body Sample.key_2)
                        Sample.started).1
                  = Ok (jsonify [("response", JStr text)] 200)) ∧
    (∀ e, Sample.answering req = Raise e → exn_cls e = RequestException →
          (chat Sample.answering None (Sample.chat_body Sample.key_2)
                Sample.started).1
          = Ok (jsonify [("error", JStr ("Network error: " +:+ exn_msg e))]
                        503)) ∧
    (∀ e,
       (chat Sample.answering None (Sample.chat_body Sample.key_2)
             Sample.started).1 = Raise e →
       e = no_APIError ∧
       ∀ text rest, Sample.answering req ≠ Ok (text :: rest)).
Proof.
  split; [vm_compute; reflexivity |].
  apply (chat_absent_key_uses_placeholder Sample.answering None
           (Sample.chat_body Sample.key_2) Sample.started Sample.key_2).
  - vm_compute. reflexivity.
  - vm_compute. reflexivity.
  - discriminate.
  - vm_compute. reflexivity.
Defined.

Lemma chat_dispatch_witness :
  ∃ req,
    upstream_log (chat Sample.answering None (Sample.chat_body Sample.key_c)
                       Sample.serving).2
    = upstream_log Sample.serving ++ [req] ∧
    messages req
    = [ {| role := "system";
           content :=
             JStr ("You are a helpful AI assistant trained on the following website content: "
                   +:+ "Opening hours 9 to 5" +:+ response_policy) |};
        {| role := "user";
           content := json_get (Sample.chat_body Sample.key_c) "input" |} ] ∧
    generation_parameters req
    = ("meta-llama/Meta-Llama-3.1-405B-Instruct-Turbo", 512%Z,
       {| mantissa := 7; places := 1 |}, {| mantissa := 7; places := 1 |},
       50%Z, 1%Z, ["<|eot_id|>"; "<|eom_id|>"]) ∧
    (∀ k, json_get (Sample.chat_body Sample.key_c) "api_key" = JStr k →
          "Opening hours 9 to 5"
          = default no_context (extracted_texts Sample.serving !! k)) ∧
    (∀ text rest, Sample.answering req = Ok (text :: rest) →
                  (chat Sample.answering None (Sample.chat_body Sample.key_c)
                        Sample.serving).1
                  = Ok (jsonify [("response", JStr text)] 200)).
Proof.
  apply (chat_dispatch Sample.answering None (Sample.chat_body Sample.key_c)
           Sample.serving "Opening hours 9 to 5").
  - vm_compute. reflexivity.
  - vm_compute. reflexivity.
  - vm_compute. reflexivity.
Defined.

Lemma chat_ignores_session_witness :
  (chat Sample.answering None (Sample.chat_body Sample.key_c)
        Sample.serving).1
  = (chat Sample.answering (Some 7) (Sample.chat_body Sample.key_c)
          (with_text Sample.key_c "Opening hours 9 to 5" Sample.started)).1 ∧
  ∃ sent,
    upstream_log (chat Sample.answering None (Sample.chat_body Sample.key_c)
                       Sample.serving).2
    = upstream_log Sample.serving ++ sent ∧
    upstream_log
      (chat Sample.answering (Some 7) (Sample.chat_body Sample.key_c)
            (with_text Sample.key_c "Opening hours 9 to 5" Sample.started)).2
    = upstream_log
        (with_text Sample.key_c "Opening hours 9 to 5" Sample.started) ++ sent.
Proof.
  apply (chat_ignores_session Sample.answering None (Some 7)
           (Sample.chat_body Sample.key_c) (Sample.chat_body Sample.key_c)
           Sample.serving
           (with_text Sample.key_c "Opening hours 9 to 5" Sample.started)).
  - reflexivity.
  - reflexivity.
  - vm_compute. reflexivity.
Defined.

Lemma sixth_request_denied_witness :
  let addr := "10.0.0.1" in
  let first := Sample.ingest addr 0 1 in
  let next :=
    [ Sample.ingest addr 10 2; Sample.ask "10.0.0.9" 15 Sample.key_2;
      Sample.ingest addr 20 3; Sample.ingest addr 30 4;
      Sample.ask addr 35 Sample.key_2; Sample.ingest addr 40 5 ] in
  let sixth := Sample.ingest addr 59 6 in
  let seventh := Sample.ingest addr 60 7 in
  let s5 := (serve_all Sample.boot (first :: next)).2 in
  let s6 := (serve s5 sixth).2 in
  let s7 := (serve_all s6 [Sample.ask addr 59 Sample.key_2]).2 in
  Forall2 (λ r o, rate_key r = (addr, "process_url") → o ≠ RateLimited)
          (first :: next) (serve_all Sample.boot (first :: next)).1 ∧
  (serve s5 sixth).1 = RateLimited ∧
  issued_key (serve s5 sixth).1 = None ∧
  app s6 = app s5 ∧
  (serve s7 seventh).1 ≠ RateLimited.
Proof.
  intros addr first next sixth seventh.
  apply (sixth_request_denied Sample.boot (addr, "process_url") first next
           sixth [Sample.ask addr 59 Sample.key_2] seventh).
  - reflexivity.
  - reflexivity.
  - reflexivity.
  - vm_compute. exact I.
  - vm_compute. reflexivity.
  - apply (bool_decide_unpack _). vm_compute. exact I.
  - vm_compute. lia.
  - apply (bool_decide_unpack _). vm_compute. exact I.
  - vm_compute. lia.
Defined.

(** C4, as first stated, fails: the second of two delete requests for the
    same key is answered with an error payload, status 404. *)
Lemma delete_twice_second_is_error :
  let first :=
    delete_api_key Sample.db_ok (Some 1) (Sample.key_body Sample.key_c)
      Sample.serving in
  let second :=
    delete_api_key Sample.db_ok (Some 1) (Sample.key_body Sample.key_c)
      first.2 in
  first.1
  = Ok (jsonify [("message", JStr "API key deleted successfully")] 200) ∧
  second.1 = Ok (jsonify [("error", JStr "API key not found")] 404) ∧
  ∃ resp, second.1 = Ok resp ∧ is_error_payload resp ∧ status resp = 404.
Proof.
  repeat split; try (vm_compute; reflexivity).
  eexists. split; [vm_compute; reflexivity |].
  split; [by eexists | reflexivity].
Qed.

Lemma delete_twice_witness :
  let first :=
    delete_api_key Sample.db_ok (Some 1) (Sample.key_body Sample.key_c)
      Sample.serving in
  let second :=
    delete_api_key Sample.db_ok (Some 1) (Sample.key_body Sample.key_c)
      first.2 in
  first.1
  = Ok (jsonify [("message", JStr "API key deleted successfully")] 200) ∧
  extracted_texts first.2 !! Sample.key_c = None ∧
  (∃ u', users first.2 !! 1 = Some u' ∧ Sample.key_c ∉ api_keys u') ∧
  second.1 = Ok (jsonify [("error", JStr "API key not found")] 404) ∧
  second.2 = first.2 ∧
  texts_pop Sample.key_c (texts_pop Sample.key_c Sample.serving).2
  = (Ok None, (texts_pop Sample.key_c Sample.serving).2).
Proof.
  apply (delete_twice Sample.db_ok 1 (Sample.key_body Sample.key_c)
           Sample.serving
           {| email := email Sample.alice; password := password Sample.alice;
              api_keys := [Sample.key_c] |}
           Sample.key_c).
  - reflexivity.
  - reflexivity.
  - vm_compute. reflexivity.
  - vm_compute. reflexivity.
  - discriminate.
  - apply (bool_decide_unpack _). vm_compute. exact I.
  - apply (bool_decide_unpack _). vm_compute. exact I.
Defined.




(** * Further properties of the handlers *)

(** ** The shape of a key *)

Lemma hex_digit_is_hex (d : N) : is_hex_digit (hex_digit d) = true.
Proof. unfold hex_digit. repeat case_match; reflexivity. Qed.

Lemma hex_digits_length (width : nat) :
  ∀ n, length (hex_digits width n) = width.
Proof. induction width as [| w IH]; intros n; cbn; [done | by rewrite IH]. Qed.

Lemma hex_digits_are_hex (width : nat) :
  ∀ n, Forall (λ c, is_hex_digit c = true) (hex_digits width n).
Proof.
  induction width as [| w IH]; intros n; cbn [hex_digits]; constructor.
  - apply hex_digit_is_hex.
  - apply IH.
Qed.

Lemma string_of_list_length (cs : list ascii) :
  String.length (string_of_list_ascii cs) = length cs.
Proof. induction cs as [| c rest IH]; cbn; [done | by rewrite IH]. Qed.

Lemma user_key_truthy (u : N) :
  truthy (JStr ("user_" +:+ uuid_hex u)) = true.
Proof.
  change ("user_" +:+ uuid_hex u) with (String "u" ("ser_" +:+ uuid_hex u)).
  reflexivity.
Qed.

Lemma uuid_key_shape (u : N) :
  String.length (uuid_hex u) = 32 ∧
  Forall (λ c, is_hex_digit c = true) (list_ascii_of_string (uuid_hex u)) ∧
  String.length ("user_" +:+ uuid_hex u) = 37 ∧
  truthy (JStr ("user_" +:+ uuid_hex u)) = true.
Proof.
  assert (Hlen : String.length (uuid_hex u) = 32).
  { unfold uuid_hex.
    by rewrite string_of_list_length, length_rev, hex_digits_length. }
  split; [| split; [| split]].
  - exact Hlen.
  - unfold uuid_hex. rewrite list_ascii_of_string_of_list_ascii.
    apply Forall_rev, hex_digits_are_hex.
  - change ("user_" +:+ uuid_hex u)
      with (String "u" (String "s" (String "e" (String "r" (String "_"
             (uuid_hex u)))))).
    cbn [String.length]. by rewrite Hlen.
  - apply user_key_truthy.
Qed.

(** ** What the chat handler sends, and when *)

Lemma chat_frame client session body w :
  extracted_texts (chat client session body w).2 = extracted_texts w ∧
  users (chat client session body w).2 = users w.
Proof.
  run.
  destruct (truthy (json_get body "input"));
    destruct (truthy (json_get body "api_key"));
    cbn -[system_content no_context]; try done.
  destruct (json_get body "api_key") as [| b | n | k | items | fields];
    cbn -[system_content no_context]; try done;
    destruct (client _) as [[| text rest] | [[] msg]];
    cbn -[system_content no_context]; done.
Qed.

(** X2. One chat request contacts the completion service at most once, and
    not at all exactly when the input or the key is missing or empty, or the
    key is a JSON array or object (which the dictionary lookup refuses to
    hash). *)
Theorem chat_calls_upstream_once (client : completion_service)
    (session : option nat) (body : gmap string json) (w : world) :
  ∃ sent,
    upstream_log (chat client session body w).2 = upstream_log w ++ sent ∧
    length sent ≤ 1 ∧
    (sent = [] ↔
     truthy (json_get body "input") = false ∨
     truthy (json_get body "api_key") = false ∨
     hashable (json_get body "api_key") = false).
Proof.
  run.
  destruct (truthy (json_get body "input")) eqn:Hin;
    destruct (truthy (json_get body "api_key")) eqn:Hkey;
    cbn -[system_content no_context];
    try (exists []; rewrite app_nil_r; cbn; split; [done |];
         split; [lia |]; split; auto).
  destruct (json_get body "api_key") as [| b | n | k | items | fields];
    cbn -[system_content no_context];
    try (exists []; rewrite app_nil_r; cbn; split; [done |];
         split; [lia |]; split; auto);
    destruct (client _) as [[| text rest] | [[] msg]];
    cbn -[system_content no_context];
    (eexists [_]; split; [reflexivity |]; split; [cbn; lia |];
     split; [discriminate | intros [? | [? | ?]]; discriminate]).
Qed.

(** For a string key, the request that goes upstream. *)
Lemma chat_str_key client session body w k :
  truthy (json_get body "input") = true →
  json_get body "api_key" = JStr k →
  k ≠ EmptyString →
  ∃ req,
    upstream_log (chat client session body w).2 = upstream_log w ++ [req] ∧
    messages req
    = [ {| role := "system";
           content := JStr (system_content
                              (default no_context (extracted_texts w !! k))) |};
        {| role := "user"; content := json_get body "input" |} ].
Proof.
  intros Hin Hkey Hk. apply truthy_str in Hk.
  run. rewrite Hkey, Hin, Hk. cbn -[system_content no_context].
  match goal with |- context [upstream_log w ++ [?r]] => exists r end.
  destruct (client _) as [[| text rest] | [[] msg]];
    cbn -[system_content no_context]; done.
Qed.

(** ** What ingestion changes, and what it leaves alone *)

Lemma process_url_world env session body w :
  let key := "user_" +:+ uuid_hex (uuid4 env) in
  let w' := (process_url env session body w).2 in
  w' = w ∨
  (∃ text, ingested_text env body = Some text ∧ w' = with_text key text w) ∨
  (∃ text user_id u,
     session = Some user_id ∧ ingested_text env body = Some text ∧
     users w !! user_id = Some u ∧
     w' = {| extracted_texts := <[key := text]> (extracted_texts w);
             users := <[user_id := with_key u key]> (users w);
             upstream_log := upstream_log w |}).
Proof.
  intros key w'. subst w'.
  destruct session as [user_id |];
    [| left; by rewrite process_url_anonymous].
  destruct (truthy (json_get body "url")) eqn:Hurl;
    [| left; by rewrite process_url_no_url].
  pose proof (process_url_paths env user_id body w Hurl) as Hpaths.
  cbn zeta in Hpaths. fold key in Hpaths.
  destruct (ingested_text env body) as [text |].
  - destruct Hpaths as [(_ & msg & ->) | (u & _ & Hu & ->)]; cbn.
    + right. left. by exists text.
    + right. right. by exists text, user_id, u.
  - destruct Hpaths as (msg & ->). by left.
Qed.

(** X3. [process_url] writes in two places at most: the dictionary entry
    of the key it has just built, and the row of the logged-in account, to
    whose list it can only append that key. Every other entry, every other
    row, each row's e-mail and password, the set of accounts and the record
    of completion calls are as before. *)
Theorem process_url_frame (env : ingest_env) (session : option nat)
    (body : gmap string json) (w : world) :
  let key := "user_" +:+ uuid_hex (uuid4 env) in
  let w' := (process_url env session body w).2 in
  (∀ k, k ≠ key → extracted_texts w' !! k = extracted_texts w !! k) ∧
  (∀ user_id, session ≠ Some user_id →
              users w' !! user_id = users w !! user_id) ∧
  (∀ user_id u, users w !! user_id = Some u →
     ∃ u', users w' !! user_id = Some u' ∧
           email u' = email u ∧ password u' = password u ∧
           (api_keys u' = api_keys u ∨ api_keys u' = api_keys u ++ [key])) ∧
  dom (users w') = dom (users w) ∧
  upstream_log w' = upstream_log w.
Proof.
  intros key w'.
  destruct (process_url_world env session body w)
    as [Hw | [(text & _ & Hw) | (text & uid & u0 & Hs & _ & Hu0 & Hw)]];
    fold key in Hw; fold w' in Hw; rewrite Hw; clear Hw; cbn.
  - repeat split; try done. intros uid u Hu. exists u. eauto.
  - repeat split; try done.
    + intros k Hk. by rewrite lookup_insert_ne.
    + intros uid u Hu. exists u. eauto.
  - repeat split; try done.
    + intros k Hk. by rewrite lookup_insert_ne.
    + intros uid' Hne. rewrite lookup_insert_ne; [done | congruence].
    + intros uid' u Hu. destruct (decide (uid' = uid)) as [-> | Hne].
      * rewrite lookup_insert_eq. simplify_eq. eexists. split; [done |].
        cbn. auto.
      * rewrite lookup_insert_ne by done. exists u. eauto.
    + apply set_eq. intros uid'. rewrite !elem_of_dom.
      destruct (decide (uid' = uid)) as [-> | Hne].
      * rewrite lookup_insert_eq, Hu0. split; eauto.
      * by rewrite lookup_insert_ne.
Qed.

(** X4. When the fetch of the page raises, [process_url] answers 500 with
    the text of that exception as the error message, and nothing has been
    written: no key is kept for a page that could not be fetched. *)
Theorem process_url_fetch_failure (env : ingest_env) (user_id : nat)
    (body : gmap string json) (w : world) (e : exn) :
  truthy (json_get body "url") = true →
  requests_get env (json_get body "url") = Raise e →
  process_url env (Some user_id) body w
  = (Ok (jsonify [("error", JStr (exn_msg e))] 500), w).
Proof.
  intros Hurl Hget. run. by rewrite Hurl, Hget.
Qed.

(** X1. Whatever [process_url] is given and whatever UUID is drawn, the
    key in its answer, and any key it adds to the dictionary, is ["user_"]
    followed by exactly 32 lower-case hexadecimal digits, 37 characters in
    all, and is a value that the [if not api_key] tests of [chat] and
    [delete_api_key] let through. *)
Theorem issued_key_format (env : ingest_env) (session : option nat)
    (body : gmap string json) (w : world) (k : string) :
  (∃ resp, (process_url env session body w).1 = Ok resp ∧
           member "api_key" (payload resp) = Some (JStr k)) ∨
  (extracted_texts w !! k = None ∧
   is_Some (extracted_texts (process_url env session body w).2 !! k)) →
  well_formed_key k ∧ String.length k = 37 ∧ truthy (JStr k) = true.
Proof.
  assert (Hshape : k = "user_" +:+ uuid_hex (uuid4 env) →
                   well_formed_key k ∧ String.length k = 37 ∧
                   truthy (JStr k) = true).
  { intros ->. destruct (uuid_key_shape (uuid4 env)) as (Hl & Hd & Hk & Ht).
    split; [by exists (uuid_hex (uuid4 env)) | done]. }
  intros [(resp & Hrun & Hm) | [Hnone Hsome]]; apply Hshape.
  - destruct (process_url env session body w) as [res w'] eqn:Hp.
    cbn [fst] in Hrun. subst res.
    destruct (process_url_issued _ _ _ _ _ _ _ Hp Hm) as (_ & _ & Hk & _).
    congruence.
  - destruct (process_url_world env session body w)
      as [Hw | [(text & _ & Hw) | (text & uid & u & _ & _ & _ & Hw)]];
      cbn zeta in Hw; rewrite Hw in Hsome; cbn in Hsome.
    + rewrite Hnone in Hsome. by destruct Hsome.
    + apply lookup_insert_is_Some in Hsome as [<- | [_ Hold]]; [done |].
      rewrite Hnone in Hold. by destruct Hold.
    + apply lookup_insert_is_Some in Hsome as [<- | [_ Hold]]; [done |].
      rewrite Hnone in Hold. by destruct Hold.
Qed.

(** ** Deleting: every way out *)

Lemma remove_first_other key k keys :
  k ≠ key → k ∈ remove_first key keys ↔ k ∈ keys.
Proof.
  intros Hne. induction keys as [| k0 rest IH]; cbn; [done |].
  destruct (String.eqb_spec k0 key) as [-> | Hk0].
  - rewrite elem_of_cons. split; [auto |]. intros [? | ?]; [congruence | done].
  - rewrite !elem_of_cons, IH. done.
Qed.

Lemma remove_first_elem key k keys :
  k ∈ remove_first key keys → k ∈ keys.
Proof.
  induction keys as [| k0 rest IH]; cbn; [done |].
  destruct (String.eqb_spec k0 key) as [-> | Hk0]; rewrite !elem_of_cons.
  - auto.
  - intros [? | ?]; auto.
Qed.

Lemma remove_first_NoDup key keys :
  NoDup keys → NoDup (remove_first key keys).
Proof.
  induction 1 as [| k0 rest Hk0 Hnd IH]; cbn; [constructor |].
  destruct (String.eqb_spec k0 key) as [-> | Hne]; [assumption |].
  constructor; [| assumption].
  intros Hin. apply Hk0. by apply remove_first_elem in Hin.
Qed.

Lemma json_in_Some v keys key :
  json_in v keys = Some key ↔ v = JStr key ∧ key ∈ keys.
Proof.
  unfold json_in. destruct v as [| b | n | s | items | fields];
    try (split; [discriminate | intros [? _]; discriminate]).
  case_bool_decide; split.
  - intros [= ->]. done.
  - intros [[= ->] _]. done.
  - discriminate.
  - intros [[= ->] ?]. contradiction.
Qed.

Lemma delete_api_key_paths db session body w :
  match session with
  | None =>
      delete_api_key db session body w
      = (Ok (jsonify [("error", JStr "User not logged in")] 401), w)
  | Some user_id =>
      if truthy (json_get body "api_key")
      then
        match query_error db with
        | Some e => delete_api_key db session body w = (Raise e, w)
        | None =>
            match users w !! user_id with
            | None => delete_api_key db session body w = (Raise no_row_error, w)
            | Some u =>
                match json_in (json_get body "api_key") (api_keys u) with
                | None =>
                    delete_api_key db session body w
                    = (Ok (jsonify [("error", JStr "API key not found")] 404),
                       w)
                | Some key =>
                    match commit_error db with
                    | Some e => delete_api_key db session body w = (Raise e, w)
                    | None =>
                        delete_api_key db session body w
                        = (Ok (jsonify [("message",
                                         JStr "API key deleted successfully")]
                                       200),
                           deleted_world w user_id u key)
                    end
                end
            end
        end
      else
        delete_api_key db session body w
        = (Ok (jsonify [("error", JStr "No API key provided")] 400), w)
  end.
Proof.
  destruct session as [user_id |]; [| reflexivity].
  run. destruct (truthy (json_get body "api_key")); cbn -[json_in]; [| done].
  destruct (query_error db); cbn -[json_in]; [done |].
  destruct (users w !! user_id) as [u |] eqn:Hu; cbn -[json_in]; [| done].
  destruct (json_in (json_get body "api_key") (api_keys u)) as [key |];
    cbn -[json_in]; [| done].
  destruct (commit_error db); cbn; [done |].
  unfold deleted_world. by rewrite (alter_found _ _ _ _ Hu).
Qed.

Ltac delete_cases db session body w :=
  let Hpaths := fresh "Hpaths" in
  pose proof (delete_api_key_paths db session body w) as Hpaths;
  repeat match type of Hpaths with
    | match ?x with _ => _ end => destruct x eqn:?
    | if ?x then _ else _ => destruct x eqn:?
    end.


(** X6. A successful [delete_api_key] removes the key from the caller's
    list, where it was, and from the dictionary, and touches nothing else:
    the caller's other keys stay listed, the other accounts' rows and the
    other dictionary entries are as before, and so is the record of
    completion calls. *)
Theorem delete_api_key_frame (db : db_env) (session : option nat)
    (body : gmap string json) (w : world) (resp : response) (w' : world) :
  delete_api_key db session body w = (Ok resp, w') →
  status resp = 200 →
  ∃ user_id u u' key,
    session = Some user_id ∧ json_get body "api_key" = JStr key ∧
    users w !! user_id = Some u ∧ key ∈ api_keys u ∧
    users w' !! user_id = Some u' ∧
    email u' = email u ∧ password u' = password u ∧
    api_keys u' = remove_first key (api_keys u) ∧
    (∀ k, k ≠ key → k ∈ api_keys u' ↔ k ∈ api_keys u) ∧
    extracted_texts w' !! key = None ∧
    (∀ k, k ≠ key → extracted_texts w' !! k = extracted_texts w !! k) ∧
    (∀ other, other ≠ user_id → users w' !! other = users w !! other) ∧
    upstream_log w' = upstream_log w.
Proof.
  intros Hrun Hst. delete_cases db session body w;
    rewrite Hpaths in Hrun; simplify_eq; cbn in Hst; try done.
  match goal with H : json_in _ _ = Some _ |- _ =>
    apply json_in_Some in H as [Hkey Hin] end.
  eexists _, _, _, _. split; [reflexivity |]. split; [exact Hkey |].
  split; [eassumption |]. split; [exact Hin |]. cbn.
  split; [apply lookup_insert_eq |]. cbn.
  repeat split; try done.
  - by apply remove_first_other.
  - by apply remove_first_other.
  - apply lookup_delete_eq.
  - intros k Hk. by rewrite lookup_delete_ne.
  - intros other Hne. by rewrite lookup_insert_ne.
Qed.

(** X7. [delete_api_key] commits the shortened list before it drops the
    text. When that commit raises, the exception leaves the view (no JSON
    answer is built), the list in the table is unchanged, and the dictionary
    still holds the text. *)
Theorem delete_api_key_commit_failure (db : db_env) (user_id : nat)
    (body : gmap string json) (w : world) (u : User) (key : string) (e : exn) :
  query_error db = None →
  commit_error db = Some e →
  users w !! user_id = Some u →
  json_get body "api_key" = JStr key →
  key ≠ EmptyString →
  key ∈ api_keys u →
  delete_api_key db (Some user_id) body w = (Raise e, w).
Proof.
  intros Hq Hcm Hu Hkey Hne Hin.
  pose proof (delete_api_key_paths db (Some user_id) body w) as Hpaths.
  cbn iota in Hpaths. rewrite Hkey in Hpaths.
  rewrite (proj2 (truthy_str key) Hne), Hq, Hu in Hpaths.
  rewrite (proj2 (json_in_Some (JStr key) (api_keys u) key)) in Hpaths
    by done.
  by rewrite Hcm in Hpaths.
Qed.

(** ** Listing the keys *)

Lemma get_user_api_keys_paths db session w :
  match session with
  | None =>
      get_user_api_keys db session w
      = (Ok (jsonify [("error", JStr "User not logged in")] 401), w)
  | Some user_id =>
      match query_error db with
      | Some e => get_user_api_keys db session w = (Raise e, w)
      | None =>
          match users w !! user_id with
          | None => get_user_api_keys db session w = (Raise no_row_error, w)
          | Some u =>
              get_user_api_keys db session w
              = (Ok (jsonify [("api_keys", JArr (JStr <$> api_keys u))] 200),
                 w)
          end
      end
  end.
Proof.
  destruct session as [user_id |]; [| reflexivity].
  unfold get_user_api_keys. run.
  destruct (query_error db); cbn; [done |].
  by destruct (users w !! user_id).
Qed.

Lemma get_user_api_keys_world db session w :
  (get_user_api_keys db session w).2 = w.
Proof.
  pose proof (get_user_api_keys_paths db session w) as Hpaths.
  repeat case_match; by rewrite Hpaths.
Qed.

(** X8. A session that names an account whose row is gone is handled in
    three ways: [process_url] stores the fetched text and then answers 500
    with an error payload; [delete_api_key] and [get_user_api_keys] build no
    answer at all, the attribute error leaves the view, and they change
    nothing. *)
Theorem stale_session (env : ingest_env) (db : db_env) (user_id : nat)
    (body_url body_key : gmap string json) (w : world) (text : string) :
  users w !! user_id = None →
  query_error (ingest_db env) = None →
  query_error db = None →
  truthy (json_get body_url "url") = true →
  ingested_text env body_url = Some text →
  truthy (json_get body_key "api_key") = true →
  (∃ msg, process_url env (Some user_id) body_url w
          = (Ok (jsonify [("error", JStr msg)] 500),
             with_text ("user_" +:+ uuid_hex (uuid4 env)) text w)) ∧
  delete_api_key db (Some user_id) body_key w = (Raise no_row_error, w) ∧
  get_user_api_keys db (Some user_id) w = (Raise no_row_error, w).
Proof.
  intros Hrow Hq1 Hq2 Hurl Htext Hkey. split; [| split].
  - pose proof (process_url_paths env user_id body_url w Hurl) as Hpaths.
    cbn zeta in Hpaths. rewrite Htext in Hpaths.
    destruct Hpaths as [(_ & msg & ->) | (u & _ & Hu & _)]; [by exists msg |].
    congruence.
  - pose proof (delete_api_key_paths db (Some user_id) body_key w) as Hpaths.
    cbn iota in Hpaths. by rewrite Hkey, Hq2, Hrow in Hpaths.
  - pose proof (get_user_api_keys_paths db (Some user_id) w) as Hpaths.
    cbn iota in Hpaths. by rewrite Hq2, Hrow in Hpaths.
Qed.

(** ** How the routes compose *)

Lemma process_url_ok env session body w resp w' :
  process_url env session body w = (Ok resp, w') →
  status resp = 200 →
  ∃ user_id u text,
    session = Some user_id ∧ users w !! user_id = Some u ∧
    ingested_text env body = Some text ∧
    resp = jsonify [("message", JStr "Processing complete");
                    ("api_key", JStr ("user_" +:+ uuid_hex (uuid4 env)));
                    ("integration_code",
                     JStr (generate_integration_code
                             ("user_" +:+ uuid_hex (uuid4 env))))] 200 ∧
    w' = {| extracted_texts :=
              <["user_" +:+ uuid_hex (uuid4 env) := text]> (extracted_texts w);
            users :=
              <[user_id := with_key u ("user_" +:+ uuid_hex (uuid4 env))]>
                (users w);
            upstream_log := upstream_log w |}.
Proof.
  intros Hrun Hst.
  destruct session as [user_id |];
    [| rewrite process_url_anonymous in Hrun; by simplify_eq].
  destruct (truthy (json_get body "url")) eqn:Hurl;
    [| rewrite process_url_no_url in Hrun by done; by simplify_eq].
  pose proof (process_url_paths env user_id body w Hurl) as Hpaths.
  cbn zeta in Hpaths.
  destruct (ingested_text env body) as [text |].
  - destruct Hpaths as [(_ & msg & Heq) | (u & _ & Hu & Heq)];
      rewrite Heq in Hrun; simplify_eq; try done.
    by exists user_id, u, text.
  - destruct Hpaths as (msg & Heq). rewrite Heq in Hrun. by simplify_eq.
Qed.

(** X9. After [process_url] has answered 200, [get_user_api_keys] for the
    same account returns the list the account had before, followed by the
    key of the answer. *)
Theorem listing_after_ingest (env : ingest_env) (db : db_env)
    (session : option nat) (body : gmap string json) (w : world)
    (resp : response) (w' : world) :
  process_url env session body w = (Ok resp, w') →
  status resp = 200 →
  query_error db = None →
  ∃ user_id u key,
    session = Some user_id ∧ users w !! user_id = Some u ∧
    member "api_key" (payload resp) = Some (JStr key) ∧
    get_user_api_keys db session w'
    = (Ok (jsonify [("api_keys", JArr (JStr <$> (api_keys u ++ [key])))] 200),
       w').
Proof.
  intros Hrun Hst Hq.
  destruct (process_url_ok _ _ _ _ _ _ Hrun Hst)
    as (user_id & u & text & -> & Hu & _ & -> & ->).
  exists user_id, u, ("user_" +:+ uuid_hex (uuid4 env)).
  repeat split; try done.
  pose proof (get_user_api_keys_paths db (Some user_id)
    {| extracted_texts :=
         <["user_" +:+ uuid_hex (uuid4 env) := text]> (extracted_texts w);
       users :=
         <[user_id := with_key u ("user_" +:+ uuid_hex (uuid4 env))]>
           (users w);
       upstream_log := upstream_log w |}) as Hpaths.
  cbn iota in Hpaths. rewrite Hq in Hpaths. cbn [users] in Hpaths.
  by rewrite lookup_insert_eq in Hpaths.
Qed.

(** X10. After [delete_api_key] has answered 200 for a key that the
    account listed once, [get_user_api_keys] for that account no longer
    shows the key, and shows every other key it showed before. *)
Theorem listing_after_delete (db : db_env) (session : option nat)
    (body : gmap string json) (w : world) (resp : response) (w' : world)
    (user_id : nat) (u : User) :
  delete_api_key db session body w = (Ok resp, w') →
  status resp = 200 →
  session = Some user_id →
  users w !! user_id = Some u →
  NoDup (api_keys u) →
  ∃ key keys,
    json_get body "api_key" = JStr key ∧
    get_user_api_keys db session w'
    = (Ok (jsonify [("api_keys", JArr (JStr <$> keys))] 200), w') ∧
    (key ∉ keys) ∧
    (∀ k, k ≠ key → k ∈ keys ↔ k ∈ api_keys u).
Proof.
  intros Hrun Hst -> Hu Hnd.
  pose proof (delete_api_key_paths db (Some user_id) body w) as Hpaths.
  cbn iota in Hpaths. rewrite Hu in Hpaths.
  destruct (truthy (json_get body "api_key"));
    [| rewrite Hpaths in Hrun; by simplify_eq].
  destruct (query_error db) eqn:Hq;
    [rewrite Hpaths in Hrun; by simplify_eq |].
  destruct (json_in (json_get body "api_key") (api_keys u)) as [key |] eqn:Hin;
    [| rewrite Hpaths in Hrun; by simplify_eq].
  destruct (commit_error db);
    rewrite Hpaths in Hrun; simplify_eq.
  apply json_in_Some in Hin as [Hkey Hin].
  exists key, (remove_first key (api_keys u)).
  split; [exact Hkey |]. split.
  - pose proof (get_user_api_keys_paths db (Some user_id)
                  (deleted_world w user_id u key)) as Hlist.
    cbn iota in Hlist. rewrite Hq in Hlist.
    unfold deleted_world in Hlist at 1. cbn [users] in Hlist.
    by rewrite lookup_insert_eq in Hlist.
  - split; [by apply remove_first_gone |].
    intros k Hk. by apply remove_first_other.
Qed.

(** X11. After [process_url] has answered 200, a chat request that carries
    the key of the answer sends upstream a system message built on the text
    just extracted from the page, the paragraphs joined by single spaces,
    even when that text is empty: the placeholder stands in for a missing
    entry only, never for an empty one. *)
Theorem chat_after_ingest (env : ingest_env) (session : option nat)
    (body : gmap string json) (w : world) (resp : response) (w' : world)
    (client : completion_service) (chat_session : option nat)
    (chat_body : gmap string json) (key : string) :
  process_url env session body w = (Ok resp, w') →
  member "api_key" (payload resp) = Some (JStr key) →
  truthy (json_get chat_body "input") = true →
  json_get chat_body "api_key" = JStr key →
  ∃ html req,
    requests_get env (json_get body "url") = Ok html ∧
    upstream_log (chat client chat_session chat_body w').2
    = upstream_log w' ++ [req] ∧
    messages req
    = [ {| role := "system";
           content :=
             JStr (system_content (join " " (paragraph_texts env html))) |};
        {| role := "user"; content := json_get chat_body "input" |} ].
Proof.
  intros Hrun Hm Hin Hkey.
  destruct (process_url_issued _ _ _ _ _ _ _ Hrun Hm) as (text & Htext & Hk & Hl).
  simplify_eq.
  unfold ingested_text in Htext.
  destruct (requests_get env (json_get body "url")) as [html |] eqn:Hget;
    [| discriminate].
  simplify_eq. exists html.
  destruct (chat_str_key client chat_session chat_body w'
              ("user_" +:+ uuid_hex (uuid4 env)) Hin Hkey)
    as (req & Hlog & Hmsg).
  { apply truthy_str, user_key_truthy. }
  exists req. rewrite Hl in Hmsg. done.
Qed.

(** X12. After [delete_api_key] has answered 200 for a key, a chat request
    with that key, from anyone, is built on the placeholder text. *)
Theorem chat_after_delete (db : db_env) (session : option nat)
    (body : gmap string json) (w : world) (resp : response) (w' : world)
    (client : completion_service) (chat_session : option nat)
    (chat_body : gmap string json) :
  delete_api_key db session body w = (Ok resp, w') →
  status resp = 200 →
  truthy (json_get chat_body "input") = true →
  json_get chat_body "api_key" = json_get body "api_key" →
  ∃ req,
    upstream_log (chat client chat_session chat_body w').2
    = upstream_log w' ++ [req] ∧
    messages req
    = [ {| role := "system"; content := JStr (system_content no_context) |};
        {| role := "user"; content := json_get chat_body "input" |} ].
Proof.
  intros Hrun Hst Hin Hsame.
  delete_cases db session body w;
    rewrite Hpaths in Hrun; simplify_eq; cbn in Hst; try done.
  match goal with H : json_in _ _ = Some _ |- _ =>
    apply json_in_Some in H as [Hkey _] end.
  match goal with H : truthy _ = true |- _ => rename H into Htruthy end.
  rewrite Hkey in Hsame.
  match goal with |- context [deleted_world w ?i ?u ?k] =>
    destruct (chat_str_key client chat_session chat_body
                (deleted_world w i u k) k Hin Hsame) as (req & Hlog & Hmsg)
  end.
  { apply truthy_str. congruence. }
  exists req. split; [exact Hlog |].
  unfold deleted_world in Hmsg at 1. cbn [extracted_texts] in Hmsg.
  by rewrite lookup_delete_eq in Hmsg.
Qed.


(** ** What a run keeps true *)

Lemma fresh_key_unlisted (drawn : list N) (d : N) :
  NoDup (drawn ++ [d]) →
  Forall (λ u, (u < uuid_bound)%N) (drawn ++ [d]) →
  "user_" +:+ uuid_hex d ∉ (λ x, "user_" +:+ uuid_hex x) <$> drawn.
Proof.
  intros Hnd Hb (x & Heq & Hx)%list_elem_of_fmap.
  rewrite Forall_app, Forall_singleton in Hb. destruct Hb as [Hbs Hbd].
  rewrite Forall_forall in Hbs.
  apply user_key_inj in Heq; [| assumption | by apply Hbs].
  subst x. apply NoDup_app in Hnd as (_ & Hdisj & _).
  apply (Hdisj d Hx). by apply list_elem_of_singleton.
Qed.

Lemma well_keyed_more drawn more w :
  well_keyed drawn w → well_keyed (drawn ++ more) w.
Proof.
  intros [Hnd Hl Ha Hs Hr]. split; try done.
  - intros uid u k Hu Hk. rewrite fmap_app, elem_of_app. left. eauto.
  - intros k Hk. rewrite fmap_app, elem_of_app. left. eauto.
Qed.

Lemma well_keyed_tables drawn w w' :
  extracted_texts w' = extracted_texts w →
  users w' = users w →
  well_keyed drawn w → well_keyed drawn w'.
Proof.
  intros Ht Hu [Hnd Hl Ha Hs Hr].
  split; rewrite ?Ht, ?Hu; assumption.
Qed.

Lemma well_keyed_text drawn w key text :
  key ∈ (λ x, "user_" +:+ uuid_hex x) <$> drawn →
  well_keyed drawn w →
  well_keyed drawn (with_text key text w).
Proof.
  intros Hkey [Hnd Hl Ha Hs Hr]. split; cbn; try done.
  - intros k. rewrite lookup_insert_is_Some. intros [<- | [_ Hk]]; auto.
  - intros uid u k Hu Hk. rewrite lookup_insert_is_Some.
    destruct (decide (key = k)); [by left | right; eauto].
Qed.

Lemma well_keyed_append drawn w user_id u key text :
  key ∈ (λ x, "user_" +:+ uuid_hex x) <$> drawn →
  (∀ id u' , users w !! id = Some u' → key ∉ api_keys u') →
  users w !! user_id = Some u →
  well_keyed drawn w →
  well_keyed drawn
    {| extracted_texts := <[key := text]> (extracted_texts w);
       users := <[user_id := with_key u key]> (users w);
       upstream_log := upstream_log w |}.
Proof.
  intros Hkey Hfresh Hu [Hnd Hl Ha Hs Hr]. split; cbn.
  - intros id u'. rewrite lookup_insert_Some.
    intros [[<- <-] | [_ Hu']]; [| eauto].
    cbn. apply NoDup_app. split; [eauto |]. split; [| apply NoDup_singleton].
    intros k Hk ->%list_elem_of_singleton. by apply (Hfresh user_id u).
  - intros id u' k. rewrite lookup_insert_Some.
    intros [[<- <-] | [_ Hu']]; [| eauto].
    cbn. rewrite elem_of_app, list_elem_of_singleton.
    intros [Hk | ->]; eauto.
  - intros id1 id2 u1 u2 k Hne. rewrite !lookup_insert_Some.
    intros [[<- <-] | [_ Hu1]] [[<- <-] | [_ Hu2]]; try done; cbn.
    + rewrite elem_of_app, list_elem_of_singleton.
      intros [Hk | ->]; [eauto | by apply (Hfresh id2 u2)].
    + rewrite elem_of_app, list_elem_of_singleton.
      intros Hk1 [Hk2 | ->]; [by apply (Ha id1 user_id u1 u k) |].
      by apply (Hfresh id1 u1).
    + eauto.
  - intros k. rewrite lookup_insert_is_Some. intros [<- | [_ Hk]]; auto.
  - intros id u' k. rewrite lookup_insert_Some, lookup_insert_is_Some.
    destruct (decide (key = k)); [by left |].
    intros [[<- <-] | [_ Hu']]; cbn.
    + rewrite elem_of_app, list_elem_of_singleton.
      intros [Hk | ->]; [right; eauto | done].
    + right; eauto.
Qed.

Lemma well_keyed_deleted drawn w user_id u key :
  users w !! user_id = Some u →
  key ∈ api_keys u →
  well_keyed drawn w →
  well_keyed drawn (deleted_world w user_id u key).
Proof.
  intros Hu Hin [Hnd Hl Ha Hs Hr]. split; cbn.
  - intros id u'. rewrite lookup_insert_Some.
    intros [[<- <-] | [_ Hu']]; [| eauto].
    cbn. apply remove_first_NoDup. eauto.
  - intros id u' k. rewrite lookup_insert_Some.
    intros [[<- <-] | [_ Hu']]; [| eauto].
    cbn. intros Hk%remove_first_elem. eauto.
  - intros id1 id2 u1 u2 k Hne. rewrite !lookup_insert_Some.
    intros [[<- <-] | [_ Hu1]] [[<- <-] | [_ Hu2]]; try done; cbn.
    + intros Hk%remove_first_elem. eauto.
    + intros Hk1 Hk2%remove_first_elem. by apply (Ha id1 user_id u1 u k).
    + eauto.
  - intros k [x Hx]. apply Hs.
    destruct (decide (key = k)) as [<- | Hne].
    + by rewrite lookup_delete_eq in Hx.
    + rewrite lookup_delete_ne in Hx by done. eauto.
  - intros id u' k. rewrite lookup_insert_Some.
    intros [[<- <-] | [Hne Hu']]; cbn.
    + intros Hk.
      assert (k ≠ key).
      { intros ->. by apply (remove_first_gone key (api_keys u)); eauto. }
      rewrite lookup_delete_ne by done.
      apply remove_first_elem in Hk. eauto.
    + intros Hk.
      assert (k ≠ key).
      { intros ->. by apply (Ha id user_id u' u key). }
      rewrite lookup_delete_ne by done. eauto.
Qed.

Lemma run_op_well_keyed drawn o w :
  well_keyed drawn w →
  NoDup (drawn ++ op_draws [o]) →
  Forall (λ u, (u < uuid_bound)%N) (drawn ++ op_draws [o]) →
  well_keyed (drawn ++ op_draws [o]) (run_op o w).2.
Proof.
  intros Hwk Hnd Hb.
  destruct o as [env session body | client session body
                | db session body | db session]; cbn [run_op op_draws omap
                                                      list_omap] in *.
  - assert (Hnew : "user_" +:+ uuid_hex (uuid4 env)
                   ∈ (λ x, "user_" +:+ uuid_hex x) <$> (drawn ++ [uuid4 env])).
    { rewrite fmap_app, elem_of_app. right. cbn.
      by apply list_elem_of_singleton. }
    pose proof (fresh_key_unlisted drawn (uuid4 env) Hnd Hb) as Hfresh.
    destruct (process_url_world env session body w)
      as [-> | [(text & _ & ->) | (text & uid & u & _ & _ & Hu & ->)]].
    + by apply well_keyed_more.
    + apply well_keyed_text; [exact Hnew | by apply well_keyed_more].
    + apply well_keyed_append; [exact Hnew | | exact Hu
                               | by apply well_keyed_more].
      intros id u' Hu' Hk. apply Hfresh. eapply wk_listed; eauto.
  - rewrite app_nil_r. destruct (chat_frame client session body w).
    by apply (well_keyed_tables drawn w).
  - rewrite app_nil_r. delete_cases db session body w;
      rewrite Hpaths; cbn [snd]; try assumption.
    match goal with H : json_in _ _ = Some _ |- _ =>
      apply json_in_Some in H as [_ Hin] end.
    by apply well_keyed_deleted.
  - rewrite app_nil_r. by rewrite get_user_api_keys_world.
Qed.

Lemma op_draws_cons o ops : op_draws (o :: ops) = op_draws [o] ++ op_draws ops.
Proof. unfold op_draws. cbn. by destruct o. Qed.

Lemma run_ops_well_keyed ops :
  ∀ drawn w,
    well_keyed drawn w →
    NoDup (drawn ++ op_draws ops) →
    Forall (λ u, (u < uuid_bound)%N) (drawn ++ op_draws ops) →
    well_keyed (drawn ++ op_draws ops) (run_ops w ops).
Proof.
  induction ops as [| o rest IH]; intros drawn w Hwk Hnd Hb.
  - cbn. by rewrite app_nil_r.
  - rewrite op_draws_cons, app_assoc in Hnd, Hb |- *. cbn [run_ops].
    apply IH; [| assumption | assumption].
    apply run_op_well_keyed; [assumption | |].
    + by apply NoDup_app in Hnd as (? & _ & _).
    + by apply Forall_app in Hb as [? _].
Qed.

Lemma fresh_start_well_keyed w : fresh_start w → well_keyed [] w.
Proof.
  intros [Ht Hk]. split.
  - intros uid u Hu. rewrite (Hk uid u Hu). constructor.
  - intros uid u k Hu. rewrite (Hk uid u Hu). by intros ?%elem_of_nil.
  - intros id1 id2 u1 u2 k _ Hu1 _. rewrite (Hk id1 u1 Hu1).
    by intros ?%elem_of_nil.
  - intros k. rewrite Ht, lookup_empty. by intros [? ?].
  - intros uid u k Hu. rewrite (Hk uid u Hu). by intros ?%elem_of_nil.
Qed.

(** X14. From a fresh start, whatever requests to [process_url], [chat],
    [delete_api_key] and [get_user_api_keys] are served and however they
    end, and as long as the UUIDs drawn are pairwise different 128-bit
    integers: no account lists a key twice, and no key is listed by two
    accounts. *)
Theorem key_lists_stay_apart (w : world) (ops : list op) :
  fresh_start w →
  NoDup (op_draws ops) →
  Forall (λ u, (u < uuid_bound)%N) (op_draws ops) →
  (∀ user_id u, users (run_ops w ops) !! user_id = Some u →
                NoDup (api_keys u)) ∧
  (∀ id1 id2 u1 u2 k,
     id1 ≠ id2 →
     users (run_ops w ops) !! id1 = Some u1 →
     users (run_ops w ops) !! id2 = Some u2 →
     k ∈ api_keys u1 → k ∉ api_keys u2).
Proof.
  intros Hfresh Hnd Hb.
  destruct (run_ops_well_keyed ops [] w (fresh_start_well_keyed w Hfresh)
              Hnd Hb) as [H1 _ H3 _ _].
  split; assumption.
Qed.

(** X15. From a fresh start, along any such run, every entry of the
    dictionary and every key an account lists is a key that an ingestion
    request of this run built: ["user_"] followed by the hexadecimal of a
    UUID drawn in the run. *)
Theorem entries_were_issued (w : world) (ops : list op) :
  fresh_start w →
  NoDup (op_draws ops) →
  Forall (λ u, (u < uuid_bound)%N) (op_draws ops) →
  (∀ k, is_Some (extracted_texts (run_ops w ops) !! k) →
        ∃ d, d ∈ op_draws ops ∧ k = "user_" +:+ uuid_hex d) ∧
  (∀ user_id u k,
     users (run_ops w ops) !! user_id = Some u → k ∈ api_keys u →
     ∃ d, d ∈ op_draws ops ∧ k = "user_" +:+ uuid_hex d).
Proof.
  intros Hfresh Hnd Hb.
  destruct (run_ops_well_keyed ops [] w (fresh_start_well_keyed w Hfresh)
              Hnd Hb) as [_ H2 _ H4 _].
  split.
  - intros k Hk. apply H4 in Hk. cbn in Hk.
    apply list_elem_of_fmap in Hk as (d & -> & Hd). eauto.
  - intros uid u k Hu Hk. specialize (H2 uid u k Hu Hk). cbn in H2.
    apply list_elem_of_fmap in H2 as (d & -> & Hd). eauto.
Qed.

(** X16. From a fresh start, along any such run, every key an account
    lists has its text in the dictionary: within one life of the process a
    listed key never falls back to the placeholder. *)
Theorem listed_keys_resolve (w : world) (ops : list op) :
  fresh_start w →
  NoDup (op_draws ops) →
  Forall (λ u, (u < uuid_bound)%N) (op_draws ops) →
  ∀ user_id u k,
    users (run_ops w ops) !! user_id = Some u → k ∈ api_keys u →
    is_Some (extracted_texts (run_ops w ops) !! k).
Proof.
  intros Hfresh Hnd Hb.
  destruct (run_ops_well_keyed ops [] w (fresh_start_well_keyed w Hfresh)
              Hnd Hb) as [_ _ _ _ H5].
  exact H5.
Qed.

(** ** The script route *)

Lemma app_cons (c : ascii) (a s : string) :
  String c a +:+ s = String c (a +:+ s).
Proof. reflexivity. Qed.

Lemma app_empty (s : string) : EmptyString +:+ s = s.
Proof. reflexivity. Qed.

Lemma app_length (a s : string) :
  String.length (a +:+ s) = String.length a + String.length s.
Proof.
  induction a as [| c a IH]; [reflexivity |].
  rewrite app_cons. cbn [String.length]. by rewrite IH.
Qed.

Lemma starts_with_app (old post : string) :
  starts_with old (old +:+ post) = true.
Proof.
  induction old as [| c old IH]; [reflexivity |].
  rewrite app_cons. cbn [starts_with]. by rewrite Ascii.eqb_refl, IH.
Qed.

(** A match that fits inside the first part of a text is a match of that
    part. *)
Lemma starts_with_within (old : string) :
  ∀ s t, String.length old ≤ String.length s →
         starts_with old (s +:+ t) = true → starts_with old s = true.
Proof.
  induction old as [| c old IH]; intros s t Hlen Hm; [reflexivity |].
  destruct s as [| b s]; [cbn in Hlen; lia |].
  rewrite app_cons in Hm. cbn [starts_with] in Hm |- *.
  apply andb_true_iff in Hm as [Hc Hrest]. rewrite Hc. cbn.
  apply (IH s t); [cbn in Hlen; lia | assumption].
Qed.

Lemma replace_skip (old new a : string) :
  ∀ s, replace_from old new (String.length a) (a +:+ s)
       = replace_from old new 0 s.
Proof.
  induction a as [| c a IH]; intros s.
  - rewrite app_empty. reflexivity.
  - rewrite app_cons. cbn [String.length replace_from]. apply IH.
Qed.

Lemma replace_absent (old new : string) :
  ∀ s, contains old s = false → replace_from old new 0 s = s.
Proof.
  induction s as [| c s IH]; intros Hno; [reflexivity |].
  cbn [contains] in Hno. apply orb_false_iff in Hno as [Hhere Hlater].
  cbn [replace_from]. rewrite Hhere. by rewrite IH.
Qed.

Lemma replace_first (m : string) (l : ascii) (new post : string) :
  ∀ pre,
    contains (m +:+ String l EmptyString) (pre +:+ m) = false →
    replace_from (m +:+ String l EmptyString) new 0
      (pre +:+ (m +:+ String l EmptyString) +:+ post)
    = pre +:+ new
      +:+ replace_from (m +:+ String l EmptyString) new 0 post.
Proof.
  set (old := m +:+ String l EmptyString).
  assert (Hlen : String.length old = S (String.length m)).
  { subst old. rewrite app_length. cbn. lia. }
  induction pre as [| c pre IH]; intros Hno.
  - rewrite !app_empty.
    destruct old as [| o old'] eqn:Hold; [cbn in Hlen; lia |].
    rewrite app_cons. cbn [replace_from].
    rewrite <- app_cons, starts_with_app.
    replace (String.length (String o old') - 1) with (String.length old')
      by (cbn [String.length]; lia).
    by rewrite replace_skip.
  - rewrite !app_cons in *. cbn [contains] in Hno.
    apply orb_false_iff in Hno as [Hhere Hlater].
    cbn [replace_from].
    destruct (starts_with old (String c (pre +:+ old +:+ post))) eqn:Hm.
    + exfalso.
      assert (Hsplit : String c (pre +:+ old +:+ post)
                       = String c (pre +:+ m)
                         +:+ (String l EmptyString +:+ post)).
      { rewrite app_cons. f_equal. subst old.
        clear. induction pre as [| b pre IH].
        - rewrite !app_empty.
          induction m as [| a m IHm]; [reflexivity |].
          rewrite !app_cons. by rewrite IHm.
        - rewrite !app_cons. by rewrite IH. }
      rewrite Hsplit in Hm.
      apply starts_with_within in Hm; [congruence |].
      rewrite Hlen. cbn [String.length]. rewrite app_length. lia.
    + by rewrite IH.
Qed.

(** X17. When the script file holds the placeholder and no earlier
    occurrence of it begins before that one, [chatbot_script] serves, as
    JavaScript, the text before the placeholder, then the caller's key, then
    the rest of the file with its own placeholders replaced the same way;
    when the rest holds none, the rest is served as it is. *)
Theorem chatbot_script_fills_placeholder (key pre post : string) :
  key ≠ EmptyString →
  contains "{{API_KEY}}" (pre +:+ "{{API_KEY}") = false →
  chatbot_script (Some key) (FileText (pre +:+ "{{API_KEY}}" +:+ post))
  = BodyReply (pre +:+ key +:+ str_replace "{{API_KEY}}" key post)
              "application/javascript" ∧
  (contains "{{API_KEY}}" post = false →
   chatbot_script (Some key) (FileText (pre +:+ "{{API_KEY}}" +:+ post))
   = BodyReply (pre +:+ key +:+ post) "application/javascript").
Proof.
  intros Hkey Hpre.
  assert (Hserved :
    chatbot_script (Some key) (FileText (pre +:+ "{{API_KEY}}" +:+ post))
    = BodyReply (pre +:+ key +:+ str_replace "{{API_KEY}}" key post)
                "application/javascript").
  { unfold chatbot_script.
    destruct (String.eqb_spec key EmptyString); [contradiction |].
    f_equal. unfold str_replace.
    exact (replace_first "{{API_KEY}" "}" key post pre Hpre). }
  split; [exact Hserved |].
  intros Hpost. rewrite Hserved. unfold str_replace.
  by rewrite replace_absent.
Qed.

(** X18. A script file without the placeholder is served unchanged,
    whatever the key. *)
Theorem chatbot_script_without_placeholder (key script : string) :
  key ≠ EmptyString →
  contains "{{API_KEY}}" script = false →
  chatbot_script (Some key) (FileText script)
  = BodyReply script "application/javascript".
Proof.
  intros Hkey Hno. unfold chatbot_script.
  destruct (String.eqb_spec key EmptyString); [contradiction |].
  unfold str_replace. by rewrite replace_absent.
Qed.

(** X19. [chatbot_script] checks the key before it reads the file: without
    a key, or with an empty one, the answer is 400 whatever the state of the
    file. With a key, a missing file gives 404 and any other read failure
    gives 500 with a fixed message that does not carry the exception's text.
    Only a readable file gives a body, and its type is JavaScript. *)
Theorem chatbot_script_replies (api_key : option string) (file : file_read) :
  (api_key = None ∨ api_key = Some EmptyString →
   chatbot_script api_key file
   = JsonReply (jsonify [("error", JStr "API key is required")] 400)) ∧
  (∀ key, api_key = Some key → key ≠ EmptyString →
     match file with
     | FileText script =>
         ∃ body, chatbot_script api_key file
                 = BodyReply body "application/javascript"
     | FileNotFoundError =>
         chatbot_script api_key file
         = JsonReply
             (jsonify [("error", JStr "Chatbot script file not found")] 404)
     | ReadError e =>
         chatbot_script api_key file
         = JsonReply (jsonify [("error", JStr "Internal server error")] 500)
     end) ∧
  (∀ body mimetype, chatbot_script api_key file = BodyReply body mimetype →
     mimetype = "application/javascript" ∧
     ∃ key script, api_key = Some key ∧ key ≠ EmptyString ∧
                   file = FileText script).
Proof.
  split; [| split].
  - intros [-> | ->]; reflexivity.
  - intros key -> Hkey. unfold chatbot_script.
    destruct (String.eqb_spec key EmptyString); [contradiction |].
    destruct file; eauto.
  - intros body mimetype. unfold chatbot_script.
    destruct api_key as [key |]; [| discriminate].
    destruct (String.eqb_spec key EmptyString); [discriminate |].
    destruct file; try discriminate.
    intros [= <- <-]. split; [reflexivity |]. eauto.
Qed.

(** ** The further properties at work on the sample deployment *)

Lemma fresh_start_sample : fresh_start Sample.started.
Proof.
  split; [reflexivity |].
  intros user_id u Hu. unfold Sample.started in Hu. cbn [users] in Hu.
  apply lookup_singleton_Some in Hu as [_ <-]. reflexivity.
Defined.

Lemma process_url_fetch_failure_witness :
  process_url Sample.unreachable_env (Some 1) Sample.url_body Sample.started
  = (Ok (jsonify [("error", JStr "Connection refused")] 500), Sample.started).
Proof.
  apply (process_url_fetch_failure Sample.unreachable_env 1 Sample.url_body
           Sample.started Demo.refused).
  - vm_compute. reflexivity.
  - reflexivity.
Defined.


Lemma delete_api_key_frame_witness :
  ∃ user_id u u' key,
    Some 1 = Some user_id ∧
    json_get (Sample.key_body Sample.key_c) "api_key" = JStr key ∧
    users Sample.serving !! user_id = Some u ∧ key ∈ api_keys u ∧
    users (deleted_world Sample.serving 1 Demo.alice_serving Sample.key_c)
      !! user_id = Some u' ∧
    email u' = email u ∧ password u' = password u ∧
    api_keys u' = remove_first key (api_keys u) ∧
    (∀ k, k ≠ key → k ∈ api_keys u' ↔ k ∈ api_keys u) ∧
    extracted_texts
      (deleted_world Sample.serving 1 Demo.alice_serving Sample.key_c)
      !! key = None ∧
    (∀ k, k ≠ key →
          extracted_texts
            (deleted_world Sample.serving 1 Demo.alice_serving Sample.key_c)
            !! k
          = extracted_texts Sample.serving !! k) ∧
    (∀ other, other ≠ user_id →
              users
                (deleted_world Sample.serving 1 Demo.alice_serving
                   Sample.key_c) !! other
              = users Sample.serving !! other) ∧
    upstream_log
      (deleted_world Sample.serving 1 Demo.alice_serving Sample.key_c)
    = upstream_log Sample.serving.
Proof.
  apply (delete_api_key_frame Sample.db_ok (Some 1)
           (Sample.key_body Sample.key_c) Sample.serving
           (jsonify [("message", JStr "API key deleted successfully")] 200)).
  - vm_compute. reflexivity.
  - reflexivity.
Defined.

Lemma delete_api_key_commit_failure_witness :
  delete_api_key Sample.db_locked (Some 1) (Sample.key_body Sample.key_c)
    Sample.serving
  = (Raise Demo.locked, Sample.serving).
Proof.
  apply (delete_api_key_commit_failure Sample.db_locked 1
           (Sample.key_body Sample.key_c) Sample.serving Demo.alice_serving
           Sample.key_c Demo.locked).
  - reflexivity.
  - reflexivity.
  - vm_compute. reflexivity.
  - vm_compute. reflexivity.
  - discriminate.
  - apply (bool_decide_unpack _). vm_compute. exact I.
Defined.

Lemma stale_session_witness :
  (∃ msg, process_url (Sample.page_env Sample.db_ok 2) (Some 5)
            Sample.url_body Sample.started
          = (Ok (jsonify [("error", JStr msg)] 500),
             with_text ("user_" +:+ uuid_hex 2) "Opening hours 9 to 5"
               Sample.started)) ∧
  delete_api_key Sample.db_ok (Some 5) (Sample.key_body Sample.key_c)
    Sample.started
  = (Raise no_row_error, Sample.started) ∧
  get_user_api_keys Sample.db_ok (Some 5) Sample.started
  = (Raise no_row_error, Sample.started).
Proof.
  apply (stale_session (Sample.page_env Sample.db_ok 2) Sample.db_ok 5
           Sample.url_body (Sample.key_body Sample.key_c) Sample.started
           "Opening hours 9 to 5").
  - vm_compute. reflexivity.
  - reflexivity.
  - reflexivity.
  - vm_compute. reflexivity.
  - vm_compute. reflexivity.
  - vm_compute. reflexivity.
Defined.

Lemma listing_after_ingest_witness :
  ∃ user_id u key,
    Some 1 = Some user_id ∧ users Sample.started !! user_id = Some u ∧
    member "api_key"
      (payload (jsonify
                  [("message", JStr "Processing complete");
                   ("api_key", JStr Sample.key_2);
                   ("integration_code",
                    JStr (generate_integration_code Sample.key_2))] 200))
    = Some (JStr key) ∧
    get_user_api_keys Sample.db_ok (Some 1)
      (process_url (Sample.page_env Sample.db_ok 2) (Some 1) Sample.url_body
         Sample.started).2
    = (Ok (jsonify [("api_keys", JArr (JStr <$> (api_keys u ++ [key])))] 200),
       (process_url (Sample.page_env Sample.db_ok 2) (Some 1) Sample.url_body
          Sample.started).2).
Proof.
  apply (listing_after_ingest (Sample.page_env Sample.db_ok 2) Sample.db_ok
           (Some 1) Sample.url_body Sample.started).
  - vm_compute. reflexivity.
  - reflexivity.
  - reflexivity.
Defined.

Lemma listing_after_delete_witness :
  ∃ key keys,
    json_get (Sample.key_body Sample.key_c) "api_key" = JStr key ∧
    get_user_api_keys Sample.db_ok (Some 1)
      (deleted_world Sample.serving 1 Demo.alice_serving Sample.key_c)
    = (Ok (jsonify [("api_keys", JArr (JStr <$> keys))] 200),
       deleted_world Sample.serving 1 Demo.alice_serving Sample.key_c) ∧
    (key ∉ keys) ∧
    (∀ k, k ≠ key → k ∈ keys ↔ k ∈ api_keys Demo.alice_serving).
Proof.
  apply (listing_after_delete Sample.db_ok (Some 1)
           (Sample.key_body Sample.key_c) Sample.serving
           (jsonify [("message", JStr "API key deleted successfully")] 200)
           (deleted_world Sample.serving 1 Demo.alice_serving Sample.key_c)
           1 Demo.alice_serving).
  - vm_compute. reflexivity.
  - reflexivity.
  - reflexivity.
  - vm_compute. reflexivity.
  - apply (bool_decide_unpack _). vm_compute. exact I.
Defined.

Lemma chat_after_ingest_witness :
  ∃ html req,
    requests_get (Sample.page_env Sample.db_ok 2)
      (json_get Sample.url_body "url") = Ok html ∧
    upstream_log
      (chat Sample.answering None (Sample.chat_body Sample.key_2)
         (process_url (Sample.page_env Sample.db_ok 2) (Some 1)
            Sample.url_body Sample.started).2).2
    = upstream_log
        (process_url (Sample.page_env Sample.db_ok 2) (Some 1)
           Sample.url_body Sample.started).2 ++ [req] ∧
    messages req
    = [ {| role := "system";
           content :=
             JStr (system_content
                     (join " " (paragraph_texts
                                  (Sample.page_env Sample.db_ok 2) html))) |};
        {| role := "user";
           content := json_get (Sample.chat_body Sample.key_2) "input" |} ].
Proof.
  apply (chat_after_ingest (Sample.page_env Sample.db_ok 2) (Some 1)
           Sample.url_body Sample.started
           (jsonify [("message", JStr "Processing complete");
                     ("api_key", JStr Sample.key_2);
                     ("integration_code",
                      JStr (generate_integration_code Sample.key_2))] 200)
           _ Sample.answering None (Sample.chat_body Sample.key_2)
           Sample.key_2).
  - vm_compute. reflexivity.
  - reflexivity.
  - vm_compute. reflexivity.
  - vm_compute. reflexivity.
Defined.

Lemma chat_after_delete_witness :
  ∃ req,
    upstream_log
      (chat Sample.answering None (Sample.chat_body Sample.key_c)
         (deleted_world Sample.serving 1 Demo.alice_serving Sample.key_c)).2
    = upstream_log
        (deleted_world Sample.serving 1 Demo.alice_serving Sample.key_c)
      ++ [req] ∧
    messages req
    = [ {| role := "system"; content := JStr (system_content no_context) |};
        {| role := "user";
           content := json_get (Sample.chat_body Sample.key_c) "input" |} ].
Proof.
  apply (chat_after_delete Sample.db_ok (Some 1)
           (Sample.key_body Sample.key_c) Sample.serving
           (jsonify [("message", JStr "API key deleted successfully")] 200)
           (deleted_world Sample.serving 1 Demo.alice_serving Sample.key_c)
           Sample.answering None (Sample.chat_body Sample.key_c)).
  - vm_compute. reflexivity.
  - reflexivity.
  - vm_compute. reflexivity.
  - vm_compute. reflexivity.
Defined.

Lemma key_lists_stay_apart_witness :
  (∀ user_id u,
     users (run_ops Sample.started Demo.session_of_alice) !! user_id = Some u →
     NoDup (api_keys u)) ∧
  (∀ id1 id2 u1 u2 k,
     id1 ≠ id2 →
     users (run_ops Sample.started Demo.session_of_alice) !! id1 = Some u1 →
     users (run_ops Sample.started Demo.session_of_alice) !! id2 = Some u2 →
     k ∈ api_keys u1 → k ∉ api_keys u2).
Proof.
  apply (key_lists_stay_apart Sample.started Demo.session_of_alice).
  - exact fresh_start_sample.
  - apply (bool_decide_unpack _). vm_compute. exact I.
  - apply (bool_decide_unpack _). vm_compute. exact I.
Defined.

Lemma entries_were_issued_witness :
  (∀ k,
     is_Some (extracted_texts (run_ops Sample.started Demo.session_of_alice)
                !! k) →
     ∃ d, d ∈ op_draws Demo.session_of_alice ∧ k = "user_" +:+ uuid_hex d) ∧
  (∀ user_id u k,
     users (run_ops Sample.started Demo.session_of_alice) !! user_id = Some u →
     k ∈ api_keys u →
     ∃ d, d ∈ op_draws Demo.session_of_alice ∧ k = "user_" +:+ uuid_hex d).
Proof.
  apply (entries_were_issued Sample.started Demo.session_of_alice).
  - exact fresh_start_sample.
  - apply (bool_decide_unpack _). vm_compute. exact I.
  - apply (bool_decide_unpack _). vm_compute. exact I.
Defined.

Lemma listed_keys_resolve_witness :
  users (run_ops Sample.started Demo.session_of_alice) !! 1
  = Some {| email := email Sample.alice; password := password Sample.alice;
            api_keys := [Sample.key_2] |} ∧
  is_Some (extracted_texts (run_ops Sample.started Demo.session_of_alice)
             !! Sample.key_2).
Proof.
  split; [vm_compute; reflexivity |].
  apply (listed_keys_resolve Sample.started Demo.session_of_alice
           fresh_start_sample) with
    (user_id := 1)
    (u := {| email := email Sample.alice; password := password Sample.alice;
             api_keys := [Sample.key_2] |}).
  - apply (bool_decide_unpack _). vm_compute. exact I.
  - apply (bool_decide_unpack _). vm_compute. exact I.
  - vm_compute. reflexivity.
  - apply (bool_decide_unpack _). vm_compute. exact I.
Defined.

Lemma chatbot_script_fills_placeholder_witness :
  chatbot_script (Some Sample.key_c)
    (FileText (Demo.script_head +:+ "{{API_KEY}}" +:+ Demo.script_tail))
  = BodyReply (Demo.script_head +:+ Sample.key_c +:+ Demo.script_tail)
              "application/javascript".
Proof.
  apply (chatbot_script_fills_placeholder Sample.key_c Demo.script_head
           Demo.script_tail).
  - discriminate.
  - vm_compute. reflexivity.
  - vm_compute. reflexivity.
Defined.

Lemma chatbot_script_without_placeholder_witness :
  chatbot_script (Some Sample.key_c) (FileText "boot({API_KEY});")
  = BodyReply "boot({API_KEY});" "application/javascript".
Proof.
  apply (chatbot_script_without_placeholder Sample.key_c "boot({API_KEY});").
  - discriminate.
  - vm_compute. reflexivity.
Defined.

Lemma issued_key_format_witness :
  well_formed_key Sample.key_2 ∧ String.length Sample.key_2 = 37 ∧
  truthy (JStr Sample.key_2) = true.
Proof.
  apply (issued_key_format (Sample.page_env Sample.db_ok 2) (Some 1)
           Sample.url_body Sample.started Sample.key_2).
  left. eexists. split; vm_compute; reflexivity.
Defined.
